(** * sensespace-did-ts: SS58 addresses, token time claims, token issuing
      and verification

    A shallow embedding of [src/utils.ts] (the address codec, the token
    splitter and the time-claim validator) and of [src/core.ts]
    ([generateToken], [verifyToken]), with the properties of the
    specification stated and proved over it.

    Conventions of the embedding:
    - a [Buffer] / [Uint8Array] is a [list byte];
    - a JavaScript string is a [string];
    - a JavaScript number that counts seconds, milliseconds or bytes is an
      integer ([Z], or [nat] for a length);
    - JSON data is a [value], an object being a [gmap string value];
    - code that may throw returns a [result];
    - what the code reads from its host (the clock, the network) is a field
      of a [world]; the calls it makes to the signature library and to the
      network are recorded in a trace of [event]s. *)

From Stdlib Require Import ZArith NArith Lia List.
From Stdlib Require Import Strings.String Strings.Ascii Strings.Byte.
From stdpp Require Import base option list gmap strings pretty.

#[local] Unset Default Proof Using.
#[local] Set Warnings "-register-all".

#[local] Open Scope N_scope.

(** ** Positional notation in an arbitrary base *)

Module Radix.
Section Radix.
Variable base : N.

(** Little-endian digits of [n]; [fuel] bounds the number of digits. *)
Fixpoint to_digits_le (fuel : nat) (n : N) : list N :=
  match fuel with
  | O => []
  | S fuel' =>
      if N.eqb n 0 then [] else (n mod base) :: to_digits_le fuel' (n / base)
  end.

Definition from_digits_le (ds : list N) : N :=
  fold_right (fun d acc => d + base * acc) 0 ds.

(** Big-endian digits, most significant first, no leading zero; the
    number of bits of [n] is always enough fuel. *)
Definition to_digits (n : N) : list N :=
  rev (to_digits_le (N.to_nat (N.size n)) n).

Definition from_digits (ds : list N) : N :=
  fold_left (fun acc d => acc * base + d) ds 0.

(** The most significant digit of a little-endian list is not zero. *)
Fixpoint top_nonzero (ds : list N) : Prop :=
  match ds with
  | [] => True
  | [d] => d <> 0
  | _ :: ds' => top_nonzero ds'
  end.

Definition digits_ok (ds : list N) : Prop := Forall (fun d => d < base) ds.
End Radix.
End Radix.

#[local] Close Scope N_scope.
#[local] Open Scope string_scope.
#[local] Open Scope list_scope.

(** ** JavaScript values, as far as the code looks at them *)

(** A JSON-compatible value, or [undefined] (what reading an absent
    property gives). Numbers are integers: the code handles counts of
    seconds only. *)
Inductive value : Type :=
  | VUndefined
  | VNull
  | VBool (b : bool)
  | VNum (n : Z)
  | VStr (s : string)
  | VArr (l : list value)
  | VObj (o : gmap string value).

(** [typeof v === 'number'] and [typeof v === 'string']. *)
Definition is_number (v : value) : bool :=
  match v with VNum _ => true | _ => false end.

Definition is_string (v : value) : bool :=
  match v with VStr _ => true | _ => false end.

(** JavaScript truthiness: [undefined], [null], [false], [0] and the empty
    string are falsy. *)
Definition truthy (v : value) : bool :=
  match v with
  | VUndefined | VNull => false
  | VBool b => b
  | VNum n => negb (Z.eqb n 0)
  | VStr s => negb (String.eqb s "")
  | VArr _ | VObj _ => true
  end.

(** The string that a value is, once the code has checked that it is one
    ([typeof v === 'string']). *)
Definition string_of (v : value) : string :=
  match v with VStr s => s | _ => "" end.

(** ** Results of code that may throw *)

(** What is thrown: an [Error] object (of any class) with its message, or
    any other value, given by the text that [String()] makes of it. The
    libraries that the code calls throw [Error] objects. *)
Inductive thrown : Type :=
  | Error (message : string)
  | NonError (text : string).

Inductive result (A : Type) : Type :=
  | Return (a : A)
  | Throw (e : thrown).
Arguments Return {A} a.
Arguments Throw {A} e.

#[global] Instance result_ret : MRet result := fun A a => Return a.

#[global] Instance result_bind : MBind result := fun A B k r =>
  match r with
  | Return a => k a
  | Throw e => Throw e
  end.

(** [obj.key]: reading a property of [null] or [undefined] throws a
    [TypeError]; an absent property reads as [undefined]. Only the
    properties that JSON data can carry are modelled, so a value that is not
    an object has none. *)
Definition get_prop (obj : value) (key : string) : result value :=
  match obj with
  | VUndefined =>
      Throw (Error ("Cannot read properties of undefined (reading '" +:+ key +:+ "')"))
  | VNull =>
      Throw (Error ("Cannot read properties of null (reading '" +:+ key +:+ "')"))
  | VObj o => Return (default VUndefined (o !! key))
  | _ => Return VUndefined
  end.

(** ** The base-58 codec of the [bs58] package *)

Module bs58.
Definition ALPHABET : string :=
  "123456789ABCDEFGHJKLMNPQRSTUVWXYZabcdefghijkmnopqrstuvwxyz".
Definition BASE : N := 58.
Definition LEADER : ascii := "1"%char.

Definition char_of_digit (d : N) : ascii :=
  nth (N.to_nat d) (list_ascii_of_string ALPHABET) LEADER.

Fixpoint index_from (c : ascii) (l : list ascii) (i : N) : option N :=
  match l with
  | [] => None
  | a :: l' => if Ascii.eqb a c then Some i else index_from c l' (N.succ i)
  end.

Definition digit_of_char (c : ascii) : option N :=
  index_from c (list_ascii_of_string ALPHABET) 0%N.

Fixpoint digits_of_chars (cs : list ascii) : option (list N) :=
  match cs with
  | [] => Some []
  | c :: cs' =>
      match digit_of_char c, digits_of_chars cs' with
      | Some d, Some ds => Some (d :: ds)
      | _, _ => None
      end
  end.

(** Number of leading zeros of a list of digits. *)
Fixpoint zeroes (ds : list N) : nat :=
  match ds with
  | d :: ds' => if N.eqb d 0 then S (zeroes ds') else O
  | [] => O
  end.

Definition byte_of_N (n : N) : byte := default x00 (Byte.of_N n).

(** [bs58.encode]: one [LEADER] per leading zero byte, then the base-58
    digits of the number the remaining bytes spell in base 256. *)
Definition encode (source : list byte) : string :=
  let digits := map Byte.to_N source in
  let z := zeroes digits in
  let n := Radix.from_digits 256 (skipn z digits) in
  string_of_list_ascii
    (repeat LEADER z ++ map char_of_digit (Radix.to_digits BASE n)).

(** [bs58.decode]: throws on a character outside the alphabet; else one
    zero byte per leading [LEADER], then the base-256 digits of the number
    the remaining characters spell in base 58. *)
Definition decode (s : string) : result (list byte) :=
  match digits_of_chars (list_ascii_of_string s) with
  | None => Throw (Error "Non-base58 character")
  | Some digits =>
      let z := zeroes digits in
      let n := Radix.from_digits BASE (skipn z digits) in
      Return (repeat x00 z ++ map byte_of_N (Radix.to_digits 256 n))
  end.
End bs58.

(** ** The host: Node.js built-ins and the packages the code imports *)

Inductive encoding : Type := hex | base64 | base64url.

(** The response of [fetch], as far as the code looks at it. *)
Record Response : Type := { ok : bool; json : result value }.

(** Library functions. They are deterministic; those that decode text may
    throw. [Number_toString] is the text of a number in a template literal:
    its decimal digits below 10^21, and a form with an exponent from there
    on. [ed25519_getPublicKey] and [ed25519_sign] are applied to 32-byte
    keys only, on which the library does not throw. *)
Class Host : Type := {
  Buffer_from : string -> encoding -> result (list byte);
  Buffer_from_utf8 : string -> list byte;
  Buffer_toString : list byte -> string;
  Buffer_toString_base64url : list byte -> string;
  JSON_parse : string -> result value;
  JSON_stringify : value -> string;
  Number_toString : Z -> string;
  blake2b : nat -> list byte -> list byte;
  blake2b_length : forall outlen input, List.length (blake2b outlen input) = outlen;
  ed25519_getPublicKey : list byte -> list byte;
  ed25519_sign : list byte -> list byte -> list byte;
  ed25519_verify : list byte -> list byte -> list byte -> result bool
}.

(** What differs from one call to the next: the clock, in milliseconds
    since the epoch, and what the network answers. *)
Record world : Type := {
  Date_now : Z;
  fetch : string -> result Response
}.

(** What [console.warn] is given, [`${before}${error}`]: the text before
    the error and the error. The text of an [Error] object starts with the
    name of its class, which is not kept, so the warning is recorded in
    these two parts. *)
Record warning : Type := Warning { text_before : string; thrown_value : thrown }.

(** The calls that leave the process, in the order they are made. *)
Inductive event : Type :=
  | EvVerify (signature message publicKey : list byte)
  | EvFetch (url : string)
  | EvWarn (message : warning).

(** A computation that may throw and records its events. *)
Record io (A : Type) : Type := IO { trace : list event; outcome : result A }.
Arguments IO {A} trace outcome.
Arguments trace {A} i.
Arguments outcome {A} i.

#[global] Instance io_ret : MRet io := fun A a => IO [] (Return a).

#[global] Instance io_bind : MBind io := fun A B k m =>
  match outcome m with
  | Return a => IO (trace m ++ trace (k a)) (outcome (k a))
  | Throw e => IO (trace m) (Throw e)
  end.

Definition lift {A : Type} (r : result A) : io A := IO [] r.

Definition emit {A : Type} (ev : event) (r : result A) : io A := IO [ev] r.

(** [try { body } catch (error) { handler }] *)
Definition try_catch {A : Type} (body : io A) (handler : thrown -> io A) : io A :=
  match outcome body with
  | Return a => body
  | Throw e => IO (trace body ++ trace (handler e)) (outcome (handler e))
  end.

(** [throw new Error(message)] when [cond] holds. *)
Definition throw_if (cond : bool) (message : string) : result unit :=
  if cond then Throw (Error message) else Return tt.

(** ** Strings and buffers *)

(** [s.split(sep)] for a one-character separator. *)
Fixpoint split (sep : ascii) (s : string) : list string :=
  match s with
  | EmptyString => [""]
  | String c s' =>
      if Ascii.eqb c sep then "" :: split sep s'
      else match split sep s' with
           | part :: parts => String c part :: parts
           | [] => [String c ""]
           end
  end.

(** [s.repeat(n)] *)
Fixpoint repeat_string (s : string) (n : nat) : string :=
  match n with
  | O => ""
  | S n' => s +:+ repeat_string s n'
  end.

(** [buf.slice(start, end)] for indices that are not negative. *)
Definition slice {A : Type} (l : list A) (start stop : nat) : list A :=
  firstn (stop - start) (skipn start l).

(** [Buffer.from([n])]: the one byte [n] modulo 256. *)
Definition byte_of_Z (n : Z) : byte := bs58.byte_of_N (Z.to_N (n mod 256)).

(** [(number) v] for a value known to be a number. *)
Definition number_of (v : value) : Z :=
  match v with VNum n => n | _ => 0%Z end.

Section Conversion.
Context `{Host}.

(** String conversion of JSON data, as a template literal [`${v}`] does it.
    An array is its items joined by commas, [null] counting for the empty
    text. An object has the text [[object Object]] that it inherits, unless
    it has a key [toString] of its own: JSON data is not callable, no text
    is then to be had and a [TypeError] is thrown. *)
Fixpoint ToString (v : value) : result string :=
  match v with
  | VUndefined => Return "undefined"
  | VNull => Return "null"
  | VBool true => Return "true"
  | VBool false => Return "false"
  | VNum n => Return (Number_toString n)
  | VStr s => Return s
  | VArr l =>
      (fix join (items : list value) : result string :=
         match items with
         | [] => Return ""
         | item :: rest =>
             text ← match item with
                    | VUndefined | VNull => Return ""
                    | _ => ToString item
                    end;
             match rest with
             | [] => Return text
             | _ :: _ => texts ← join rest; Return (text +:+ "," +:+ texts)
             end
         end) l
  | VObj o =>
      match o !! "toString" with
      | Some _ => Throw (Error "Cannot convert object to primitive value")
      | None => Return "[object Object]"
      end
  end.

(** [throw new Error(`${before}${v}${after}`)]: the text of [v] is made
    first, and making it may throw. *)
Definition throw_template (before : string) (v : value) (after : string)
  : result unit :=
  text ← ToString v;
  Throw (Error (before +:+ text +:+ after)).
End Conversion.

(** ** src/utils.ts *)

Section Utils.
Context `{Host}.

(** Base64URL decode with padding fix *)
Definition b64urlDecode (data : string) : result (list byte) :=
  let pad := 4 - (String.length data) mod 4 in
  let padded := if Nat.eqb pad 4 then data else data +:+ repeat_string "=" pad in
  Buffer_from padded base64url.

(** Base64URL encode *)
Definition b64urlEncode (data : list byte) : string :=
  Buffer_toString_base64url data.

(** Split JWT token into parts: header, payload, signature bytes. *)
Definition splitJWT (token : string) : result (value * value * list byte) :=
  let parts := split "." token in
  match parts with
  | [h; p; s] =>
      hb ← b64urlDecode h;
      header ← JSON_parse (Buffer_toString hb);
      pb ← b64urlDecode p;
      payload ← JSON_parse (Buffer_toString pb);
      signature ← b64urlDecode s;
      Return (header, payload, signature)
  | _ => Throw (Error "Invalid JWT format")
  end.

(** Decode SS58 address to extract 32-byte Ed25519 public key *)
Definition ss58DecodePublicKey (ss58Addr : string) : result (list byte) :=
  raw ← bs58.decode ss58Addr;
  _ ← throw_if (List.length raw <? 1 + 32 + 2)%nat
        ("SS58 raw too short: " +:+ pretty (List.length raw) +:+ " bytes");
  let prefixLen :=
    if (List.length raw =? 1 + 32 + 2)%nat then 1
    else if (List.length raw =? 2 + 32 + 2)%nat then 2
    else List.length raw - 32 - 2 in
  let pubkey := slice raw prefixLen (prefixLen + 32) in
  _ ← throw_if (negb (List.length pubkey =? 32)%nat) "Decoded public key is not 32 bytes";
  Return pubkey.

(** Generate SS58 address from Ed25519 public key; [prefix] defaults to 42. *)
Definition generateSS58Address (publicKey : list byte) (prefix : option Z) : string :=
  let prefix := default 42%Z prefix in
  let checksumInput := [byte_of_Z prefix] ++ publicKey in
  let fullHash := blake2b 64 checksumInput in
  let checksum := slice fullHash 0 2 in
  let addressBytes := [byte_of_Z prefix] ++ publicKey ++ checksum in
  bs58.encode addressBytes.

(** Validate token timestamp claims; [now] is read from the clock. *)
Definition validateTokenTimes (w : world) (payload : value) (maxAge : option Z)
  : result unit :=
  let now := (Date_now w / 1000)%Z in
  exp ← get_prop payload "exp";
  _ ← (if truthy exp && is_number exp
       then throw_if (now >=? number_of exp)%Z "Token expired"
       else Return tt);
  nbf ← get_prop payload "nbf";
  _ ← (if truthy nbf && is_number nbf
       then throw_if (now <? number_of nbf)%Z "Token not yet valid"
       else Return tt);
  match maxAge with
  | Some maxAge =>
      if negb (maxAge =? 0)%Z then
        iat ← get_prop payload "iat";
        if truthy iat && is_number iat
        then throw_if (now >? number_of iat + maxAge)%Z "Token too old"
        else Return tt
      else Return tt
  | None => Return tt
  end.
End Utils.

(** ** src/types.ts *)

Record VerifyTokenResult : Type := {
  success : bool;
  error : option string;
  claims : option value;
  didDocument : option value
}.

(** An absent option is [None]. The private key is a string or bytes. *)
Record GenerateTokenOptions : Type := {
  privateKey : string + list byte;
  subject : option string;
  issuer : option string;
  expiresIn : option Z;
  additionalClaims : option (gmap string value)
}.

Record TokenVerifierOptions : Type := {
  didBaseUrl : option string;
  allowedIssuers : option (list string);
  maxTokenAge : option Z
}.

(** ** src/core.ts *)

Section Core.
Context `{Host}.

(** The [privateKey] option as bytes: a string is tried as hex, then, when
    that throws, as base64. *)
Definition privateKeyBytes_of (privateKey : string + list byte) : result (list byte) :=
  match privateKey with
  | inl s =>
      match Buffer_from s hex with
      | Return bytes => Return bytes
      | Throw _ =>
          match Buffer_from s base64 with
          | Return bytes => Return bytes
          | Throw _ => Throw (Error "Private key string must be valid hex or base64")
          end
      end
  | inr bytes => Return bytes
  end.

(** The object literal [{ iat, exp, nbf, iss, sub, ...additionalClaims }]:
    the entries of [additionalClaims] are written last, over the five
    fixed ones. The order of the entries is not kept. *)
Definition payload_of (now expiresIn : Z) (issuer : string)
    (subject : option string) (ss58Address : string)
    (additionalClaims : gmap string value) : gmap string value :=
  let sub :=
    match subject with
    | Some s => if truthy (VStr s) then s else ss58Address
    | None => ss58Address
    end in
  additionalClaims ∪
    <["iat" := VNum now]>
    (<["exp" := VNum (now + expiresIn)]>
    (<["nbf" := VNum now]>
    (<["iss" := VStr issuer]>
    (<["sub" := VStr sub]> ∅)))).

Definition header_EdDSA : gmap string value :=
  <["alg" := VStr "EdDSA"]> (<["typ" := VStr "JWT"]> ∅).

(** The tail of [generateToken]: header and payload are serialised and
    encoded, their concatenation is signed and the signature appended. *)
Definition signToken (payload : gmap string value) (privateKeyBytes : list byte) : string :=
  let encodedHeader :=
    b64urlEncode (Buffer_from_utf8 (JSON_stringify (VObj header_EdDSA))) in
  let encodedPayload :=
    b64urlEncode (Buffer_from_utf8 (JSON_stringify (VObj payload))) in
  let signingInput := encodedHeader +:+ "." +:+ encodedPayload in
  let signingInputBytes := Buffer_from_utf8 signingInput in
  let signature := ed25519_sign signingInputBytes privateKeyBytes in
  let encodedSignature := b64urlEncode signature in
  signingInput +:+ "." +:+ encodedSignature.

(** Generate a JWT token with Ed25519 signature *)
Definition generateToken (w : world) (options : GenerateTokenOptions) : result string :=
  let issuer := default "sensespace" (issuer options) in
  let expiresIn := default (30 * 24 * 60 * 60)%Z (expiresIn options) in
  let additionalClaims := default ∅ (additionalClaims options) in
  privateKeyBytes ← privateKeyBytes_of (privateKey options);
  _ ← throw_if (negb (List.length privateKeyBytes =? 32)%nat)
        ("Ed25519 private key must be 32 bytes, got "
           +:+ pretty (List.length privateKeyBytes));
  let publicKey := ed25519_getPublicKey privateKeyBytes in
  let ss58Address := generateSS58Address publicKey None in
  let now := (Date_now w / 1000)%Z in
  let payload :=
    payload_of now expiresIn issuer (subject options) ss58Address additionalClaims in
  Return (signToken payload privateKeyBytes).

(** [allowedIssuers.includes(iss)] *)
Definition includes (allowedIssuers : list string) (iss : value) : bool :=
  match iss with
  | VStr s => bool_decide (s ∈ allowedIssuers)
  | _ => false
  end.

(** [header.alg !== 'EdDSA'] *)
Definition not_EdDSA (alg : value) : bool :=
  match alg with
  | VStr s => negb (String.eqb s "EdDSA")
  | _ => true
  end.

(** Step 8 of [verifyToken]: the optional DID document. *)
Definition fetchDidDocument (w : world) (didBaseUrl sub : string) : io (option value) :=
  if truthy (VStr didBaseUrl) && String.prefix "5" sub then
    try_catch
      (response ← emit (EvFetch (didBaseUrl +:+ sub)) (fetch w (didBaseUrl +:+ sub));
       if ok response
       then document ← lift (json response); mret (Some document)
       else mret None)
      (fun error =>
         emit (EvWarn (Warning "Failed to fetch DID document: " error))
           (Return None))
  else mret None.

(** Verify JWT token with Ed25519 signature using SS58 address *)
Definition verifyToken (w : world) (token : string) (options : TokenVerifierOptions)
  : io VerifyTokenResult :=
  let didBaseUrl := default "https://api.sensespace.xyz/api/did/" (didBaseUrl options) in
  let allowedIssuers := default ["sensespace"] (allowedIssuers options) in
  let maxTokenAge := maxTokenAge options in
  try_catch
    ('(header, payload, signatureBytes) ← lift (splitJWT token);
     sub ← lift (get_prop payload "sub");
     _ ← lift (throw_if (negb (truthy sub) || negb (is_string sub))
                 "JWT payload has no valid subject");
     let sub := string_of sub in
     alg ← lift (get_prop header "alg");
     _ ← lift (if not_EdDSA alg
               then throw_template "Unsupported algorithm: " alg ", expected EdDSA"
               else Return tt);
     _ ← lift (if (0 <? List.length allowedIssuers)%nat then
                 iss ← get_prop payload "iss";
                 if truthy iss
                 then if negb (includes allowedIssuers iss)
                      then throw_template "Invalid issuer: " iss ""
                      else Return tt
                 else Return tt
               else Return tt);
     _ ← lift (validateTokenTimes w payload maxTokenAge);
     publicKeyBytes ← lift (ss58DecodePublicKey sub);
     let parts := slice (split "." token) 0 2 in
     let encodedHeader := nth 0 parts "undefined" in
     let encodedPayload := nth 1 parts "undefined" in
     let signingInput := encodedHeader +:+ "." +:+ encodedPayload in
     let signingInputBytes := Buffer_from_utf8 signingInput in
     isValid ← emit (EvVerify signatureBytes signingInputBytes publicKeyBytes)
                 (ed25519_verify signatureBytes signingInputBytes publicKeyBytes);
     _ ← lift (throw_if (negb isValid) "Invalid JWT signature");
     didDocument ← fetchDidDocument w didBaseUrl sub;
     mret {| success := true; error := None;
             claims := Some payload; didDocument := didDocument |})
    (fun error =>
       mret {| success := false;
               error := Some (match error with
                              | Error message => message
                              | NonError text => text
                              end);
               claims := None; didDocument := None |}).
End Core.

(** ** A host to run the code on

    The theorems below hold for every host. To evaluate the code on concrete
    inputs one host is fixed here: hexadecimal and Base64 text are decoded
    as Node.js does (decoding stops at the first character that does not
    belong, and never throws), text is ASCII, numbers are written with all
    their digits, [JSON.parse] knows the five texts the examples use, and
    the hash and the signature scheme are stand-ins with the right
    lengths. *)

Module SampleHost.
Definition quote : string := String (Ascii.ascii_of_nat 34) "".

(** The JSON text of an object with one entry, a string. *)
Definition text_of_entry (key v : string) : string :=
  "{" +:+ quote +:+ key +:+ quote +:+ ":" +:+ quote +:+ v +:+ quote +:+ "}".

Definition alice : string := "5GrwvaEF5zXb26Fz9rcQpDWS57CtERHpNehXCPcNoHGKutQY".

(** {"alg":"HS256"}, {"alg":"EdDSA"}, {}, {"sub":"5abc"} and
    {"sub":"5Grw...utQY"} *)
Definition text_header_HS256 : string := text_of_entry "alg" "HS256".
Definition text_header_EdDSA : string := text_of_entry "alg" "EdDSA".
Definition text_empty_object : string := "{}".
Definition text_payload_sub : string := text_of_entry "sub" "5abc".
Definition text_payload_alice : string := text_of_entry "sub" alice.

Definition parse (text : string) : result value :=
  if String.eqb text text_header_HS256 then
    Return (VObj (<["alg" := VStr "HS256"]> ∅))
  else if String.eqb text text_header_EdDSA then
    Return (VObj (<["alg" := VStr "EdDSA"]> ∅))
  else if String.eqb text text_payload_alice then
    Return (VObj (<["sub" := VStr alice]> ∅))
  else if String.eqb text text_empty_object then
    Return (VObj ∅)
  else if String.eqb text text_payload_sub then
    Return (VObj (<["sub" := VStr "5abc"]> ∅))
  else Throw (Error "Unexpected token in JSON").

(** Scalars as JSON writes them, and the entries of an object in key
    order. The objects of the examples hold scalars: an array or an object
    inside an object is written as an empty one. *)
Definition stringify_item (v : value) : string :=
  match v with
  | VStr s => quote +:+ s +:+ quote
  | VNum n => pretty n
  | VBool true => "true"
  | VBool false => "false"
  | VArr _ => "[]"
  | VObj _ => "{}"
  | VUndefined | VNull => "null"
  end.

Definition stringify (v : value) : string :=
  match v with
  | VObj o =>
      "{" +:+ String.concat ","
                (map (fun kv => quote +:+ kv.1 +:+ quote +:+ ":" +:+ stringify_item kv.2)
                     (map_to_list o)) +:+ "}"
  | _ => stringify_item v
  end.

Definition digit_in (alphabet : string) (c : ascii) : option N :=
  bs58.index_from c (list_ascii_of_string alphabet) 0%N.

Definition hex_digit (c : ascii) : option N :=
  match digit_in "0123456789abcdef" c with
  | Some d => Some d
  | None => (fun d => d + 10)%N <$> digit_in "ABCDEF" c
  end.

Fixpoint decode_hex (cs : list ascii) : list byte :=
  match cs with
  | a :: cs' =>
      match cs' with
      | b :: cs'' =>
          match hex_digit a, hex_digit b with
          | Some x, Some y => bs58.byte_of_N (16 * x + y) :: decode_hex cs''
          | _, _ => []
          end
      | [] => []
      end
  | [] => []
  end.

Definition base64_alphabet : string :=
  "ABCDEFGHIJKLMNOPQRSTUVWXYZabcdefghijklmnopqrstuvwxyz0123456789".

(** The value of a Base64 character, in either alphabet. *)
Definition sextet (c : ascii) : option N :=
  match digit_in base64_alphabet c with
  | Some d => Some d
  | None =>
      match digit_in "+/" c with
      | Some d => Some (62 + d)%N
      | None => (fun d => 62 + d)%N <$> digit_in "-_" c
      end
  end.

(** The leading characters that are Base64 characters. *)
Fixpoint sextets (cs : list ascii) : list N :=
  match cs with
  | c :: cs' => match sextet c with Some d => d :: sextets cs' | None => [] end
  | [] => []
  end.

Fixpoint decode_sextets (fuel : nat) (ds : list N) : list byte :=
  match fuel, ds with
  | S fuel', a :: b :: c :: d :: ds' =>
      let n := (((a * 64 + b) * 64 + c) * 64 + d)%N in
      bs58.byte_of_N (n / 65536) :: bs58.byte_of_N (n / 256 mod 256)
        :: bs58.byte_of_N (n mod 256) :: decode_sextets fuel' ds'
  | _, [a; b; c] =>
      let n := ((a * 64 + b) * 64 + c)%N in
      [bs58.byte_of_N (n / 1024); bs58.byte_of_N (n / 4 mod 256)]
  | _, [a; b] => [bs58.byte_of_N ((a * 64 + b) / 16)]
  | _, _ => []
  end.

Definition decode_base64 (s : string) : list byte :=
  let ds := sextets (list_ascii_of_string s) in
  decode_sextets (List.length ds) ds.

Definition base64url_char (d : N) : ascii :=
  nth (N.to_nat d) (list_ascii_of_string (base64_alphabet +:+ "-_")) "A"%char.

Fixpoint encode_base64url (bs : list N) : list ascii :=
  match bs with
  | a :: b :: c :: bs' =>
      let n := ((a * 256 + b) * 256 + c)%N in
      base64url_char (n / 262144) :: base64url_char (n / 4096 mod 64)
        :: base64url_char (n / 64 mod 64) :: base64url_char (n mod 64)
        :: encode_base64url bs'
  | [a; b] =>
      let n := ((a * 256 + b) * 4)%N in
      [base64url_char (n / 4096); base64url_char (n / 64 mod 64);
       base64url_char (n mod 64)]
  | [a] => [base64url_char (a / 4); base64url_char (a * 16 mod 64)]
  | [] => []
  end.

Definition decode_text (s : string) (enc : encoding) : result (list byte) :=
  match enc with
  | hex => Return (decode_hex (list_ascii_of_string s))
  | base64 | base64url => Return (decode_base64 s)
  end.

(** A stand-in for the hash: [outlen] copies of the sum of the input. *)
Definition digest (outlen : nat) (input : list byte) : list byte :=
  repeat (bs58.byte_of_N (fold_right N.add 0%N (map Byte.to_N input) mod 256)) outlen.

(** A stand-in for the signature scheme: the public key is the private
    key and a signature is the digest of key and message. *)
Definition sign (message key : list byte) : list byte := digest 64 (key ++ message).

Definition verify (signature message publicKey : list byte) : result bool :=
  Return (bool_decide (map Byte.to_N signature = map Byte.to_N (sign message publicKey))).

#[global] Program Instance host : Host := {|
  Buffer_from := decode_text;
  Buffer_from_utf8 := list_byte_of_string;
  Buffer_toString := string_of_list_byte;
  Buffer_toString_base64url := fun bytes =>
    string_of_list_ascii (encode_base64url (map Byte.to_N bytes));
  JSON_parse := parse;
  JSON_stringify := stringify;
  Number_toString := pretty;
  blake2b := digest;
  ed25519_getPublicKey := fun key => key;
  ed25519_sign := sign;
  ed25519_verify := verify
|}.
Next Obligation. intros. apply repeat_length. Defined.

(** The clock at 2023-11-14T22:13:20Z, and no network. *)
Definition offline : world :=
  {| Date_now := 1700000000000;
     fetch := fun _ => Throw (Error "fetch failed") |}.

Definition at_time (seconds : Z) : world :=
  {| Date_now := seconds * 1000;
     fetch := fun _ => Throw (Error "fetch failed") |}.

Definition no_options : TokenVerifierOptions :=
  {| didBaseUrl := None; allowedIssuers := None; maxTokenAge := None |}.
End SampleHost.

(** ** Inputs of the worked examples *)

Module Examples.
(** A well-known development address, its public key and its raw form:
    prefix 42, the key, and the two checksum bytes. *)
Definition alice : string := SampleHost.alice.

Definition alice_key : list byte :=
  SampleHost.decode_hex
    (list_ascii_of_string
       "d43593c715fdd31c61141abd04a99fd6822c8558854ccde39a5684e7a56da27d").

Definition alice_raw : list byte := [x2a] ++ alice_key ++ [x1d; x21].

(** The same address with its two checksum bytes overwritten. *)
Definition alice_tampered : string := bs58.encode ([x2a] ++ alice_key ++ [x00; x00]).

(** Claims whose time fields are all zero, and claims that expire at
    second 100. *)
Definition claims_zero : value :=
  VObj (<["exp" := VNum 0]> (<["nbf" := VNum 0]> (<["iat" := VNum 0]> ∅))).

Definition claims_exp_100 : value := VObj (<["exp" := VNum 100]> ∅).

(** Two tokens whose header names the algorithm HS256: the payload of the
    first is the empty object, that of the second has the subject 5abc. *)
Definition token_HS256_no_subject : string := "eyJhbGciOiJIUzI1NiJ9.e30.AA".
Definition token_HS256_subject : string :=
  "eyJhbGciOiJIUzI1NiJ9.eyJzdWIiOiI1YWJjIn0.AA".

(** A token whose header names EdDSA and whose subject is [alice], with a
    signature of one zero byte. *)
Definition token_EdDSA_alice : string :=
  "eyJhbGciOiJFZERTQSJ9"
  +:+ ".eyJzdWIiOiI1R3J3dmFFRjV6WGIyNkZ6OXJjUXBEV1M1N0N0RVJIcE5laFhDUGNOb0hHS3V0UVkifQ"
  +:+ ".AA".

(** A private key of 32 bytes, as bytes and as a hex string. *)
Definition key_01 : list byte := repeat x01 32.
Definition key_01_hex : string := repeat_string "01" 32.

(** Thirty-two zero bytes in Base64. *)
Definition key_00_base64 : string := "AAAAAAAAAAAAAAAAAAAAAAAAAAAAAAAAAAAAAAAAAAA=".

Definition options_of (key : string + list byte) (subject : option string)
    (extra : option (gmap string value)) : GenerateTokenOptions :=
  {| privateKey := key; subject := subject; issuer := None;
     expiresIn := None; additionalClaims := extra |}.

(** The same token, signed as the sample host signs. *)
Definition signing_input_alice : string :=
  "eyJhbGciOiJFZERTQSJ9"
  +:+ ".eyJzdWIiOiI1R3J3dmFFRjV6WGIyNkZ6OXJjUXBEV1M1N0N0RVJIcE5laFhDUGNOb0hHS3V0UVkifQ".

Definition token_signed_alice : string :=
  signing_input_alice +:+ "."
  +:+ b64urlEncode (H := SampleHost.host)
        (SampleHost.sign (list_byte_of_string signing_input_alice) alice_key).

(** The address of [key_01] on the sample host, whose public keys are the
    private keys. *)
Definition address_01 : string :=
  generateSS58Address (H := SampleHost.host) key_01 None.

End Examples.

(** ** Definitions that follow the words of the specification *)

(** The prefix length as the specification words it. *)
Definition inferred_prefix_length (rawLength : nat) : nat :=
  if (rawLength =? 35)%nat then 1
  else if (rawLength =? 36)%nat then 2
  else rawLength - 34.

(** The error of an address whose raw form is too short. *)
Definition too_short (rawLength : nat) : thrown :=
  Error ("SS58 raw too short: " +:+ pretty rawLength +:+ " bytes").

(** A structured result: success with the claims and perhaps a document,
    or failure with a message and nothing else. *)
Definition structured (r : VerifyTokenResult) : Prop :=
  (success r = true /\ is_Some (claims r) /\ error r = None)
  \/ (success r = false /\ is_Some (error r)
      /\ claims r = None /\ didDocument r = None).

(** The failed result that carries [message]. *)
Definition failure (message : string) : VerifyTokenResult :=
  {| success := false; error := Some message; claims := None; didDocument := None |}.

(** The bytes of a private key: the bytes given, or those of the string
    read as hex, or, when that throws, read as base64. *)
Definition key_bytes `{Host} (privateKey : string + list byte) (bytes : list byte) : Prop :=
  match privateKey with
  | inr given => bytes = given
  | inl s =>
      Buffer_from s hex = Return bytes
      \/ ((exists e, Buffer_from s hex = Throw e) /\ Buffer_from s base64 = Return bytes)
  end.

(** The error of a private key that is not 32 bytes long. *)
Definition invalid_key_length (n : nat) : thrown :=
  Error ("Ed25519 private key must be 32 bytes, got " +:+ pretty n).

(** ** src/core.ts: the class [SenseSpaceTokenVerifier] *)

(** An options object as it is passed around and kept: each key is absent
    ([None]), or present with a value or with [undefined] ([Some None]). *)
Record OptionsObject : Type := {
  key_didBaseUrl : option (option string);
  key_allowedIssuers : option (option (list string));
  key_maxTokenAge : option (option Z)
}.

(** [{ ...a, ...b }]: a key of [b] wins, also when its value is
    [undefined]. *)
Definition spread_key {A : Type} (a b : option A) : option A :=
  match b with
  | Some v => Some v
  | None => a
  end.

Definition spread (a b : OptionsObject) : OptionsObject :=
  {| key_didBaseUrl := spread_key (key_didBaseUrl a) (key_didBaseUrl b);
     key_allowedIssuers := spread_key (key_allowedIssuers a) (key_allowedIssuers b);
     key_maxTokenAge := spread_key (key_maxTokenAge a) (key_maxTokenAge b) |}.

(** Reading the three options off an object: an absent key reads as
    [undefined]. *)
Definition read_options (o : OptionsObject) : TokenVerifierOptions :=
  {| didBaseUrl := mjoin (key_didBaseUrl o);
     allowedIssuers := mjoin (key_allowedIssuers o);
     maxTokenAge := mjoin (key_maxTokenAge o) |}.

Module SenseSpaceTokenVerifier.
Section Class.
Context `{Host}.

(** The state of an instance is its private field [options]. *)
Definition constructor (options : OptionsObject) : OptionsObject :=
  spread
    {| key_didBaseUrl := Some (Some "https://api.sensespace.xyz/api/did/");
       key_allowedIssuers := Some (Some ["sensespace"]);
       key_maxTokenAge := None |}
    options.

(** Verify a bearer token *)
Definition verify (this : OptionsObject) (w : world) (token : string)
  : io VerifyTokenResult :=
  verifyToken w token (read_options this).

(** Extract claims without verification; [null] when the token cannot be
    split. *)
Definition extractClaims (this : OptionsObject) (token : string) : value :=
  match splitJWT token with
  | Return (_, payload, _) => payload
  | Throw _ => VNull
  end.

(** Update verifier options *)
Definition updateOptions (this : OptionsObject) (newOptions : OptionsObject)
  : OptionsObject :=
  spread this newOptions.
End Class.
End SenseSpaceTokenVerifier.

(** ** Further definitions that word the properties *)

(** The number of separators in a string. *)
Fixpoint count_char (sep : ascii) (s : string) : nat :=
  match s with
  | EmptyString => 0
  | String c s' => (if Ascii.eqb c sep then 1 else 0) + count_char sep s'
  end.

(** A claim passes a guarded time check when it is not a number other than
    zero, or when the number satisfies [holds]. *)
Definition passes (claim : value) (holds : Z -> Prop) : Prop :=
  match claim with
  | VNum n => n = 0%Z \/ holds n
  | _ => True
  end.

(** The host carries [v] through: serialised, encoded, decoded with the
    padding put back and parsed, it is [v] again. *)
Definition carries_value `{Host} (v : value) : Prop :=
  (bytes ← b64urlDecode (b64urlEncode (Buffer_from_utf8 (JSON_stringify v)));
   JSON_parse (Buffer_toString bytes)) = Return v.

(** The same for bytes, encoded and decoded. *)
Definition carries_bytes `{Host} (bytes : list byte) : Prop :=
  b64urlDecode (b64urlEncode bytes) = Return bytes.

(** The encoder never writes the separator of the token. *)
Definition encoder_writes_no_dot `{Host} : Prop :=
  forall bytes, count_char "." (b64urlEncode bytes) = 0.

(** A signature made with a 32-byte key verifies under its public key,
    which has 32 bytes. *)
Definition signatures_verify `{Host} : Prop :=
  forall message key, List.length key = 32 ->
    List.length (ed25519_getPublicKey key) = 32
    /\ ed25519_verify (ed25519_sign message key) message (ed25519_getPublicKey key)
       = Return true.

(** The conditions under which [verifyToken] accepts a token with the
    given payload: the token is three segments, header and payload are
    parsed from the first two, the subject is a non-empty string, the
    algorithm is EdDSA, a truthy issuer is on a non-empty allow-list, the
    time claims are accepted, the subject decodes to a key, and the
    signature library answers [true] for the third segment over the first
    two as they stand in the token, under that key. *)
Definition accepted `{Host} (w : world) (token : string)
    (options : TokenVerifierOptions) (payload : value) : Prop :=
  exists header signatureBytes sub publicKey h p s,
    token = h +:+ "." +:+ p +:+ "." +:+ s
    /\ splitJWT token = Return (header, payload, signatureBytes)
    /\ get_prop payload "sub" = Return (VStr sub) /\ sub <> ""
    /\ get_prop header "alg" = Return (VStr "EdDSA")
    /\ (forall iss, get_prop payload "iss" = Return iss -> truthy iss = true ->
          default ["sensespace"] (allowedIssuers options) <> [] ->
          includes (default ["sensespace"] (allowedIssuers options)) iss = true)
    /\ validateTokenTimes w payload (maxTokenAge options) = Return tt
    /\ ss58DecodePublicKey sub = Return publicKey
    /\ ed25519_verify signatureBytes (Buffer_from_utf8 (h +:+ "." +:+ p)) publicKey
       = Return true.

(** ** A host with a larger parsing table

    The sample host, except that [JSON.parse] first looks its text up in
    the table given. *)

Module TableHost.
Definition parse_with (table : list (string * value)) (text : string) : result value :=
  match find (fun entry => String.eqb entry.1 text) table with
  | Some entry => Return entry.2
  | None => SampleHost.parse text
  end.

Definition host (table : list (string * value)) : Host :=
  {| Buffer_from := SampleHost.decode_text;
     Buffer_from_utf8 := list_byte_of_string;
     Buffer_toString := string_of_list_byte;
     Buffer_toString_base64url := fun bytes =>
       string_of_list_ascii (SampleHost.encode_base64url (map Byte.to_N bytes));
     JSON_parse := parse_with table;
     JSON_stringify := SampleHost.stringify;
     Number_toString := pretty;
     blake2b := SampleHost.digest;
     blake2b_length := @blake2b_length SampleHost.host;
     ed25519_getPublicKey := fun key => key;
     ed25519_sign := SampleHost.sign;
     ed25519_verify := SampleHost.verify |}.
End TableHost.

(** ** Inputs of the further examples *)

Module MoreExamples.
(** The payload {"sub":"5abc","iss":"other"}, its text, and a token with
    the header {"alg":"EdDSA"} that carries it. *)
Definition payload_other_issuer : value :=
  VObj (<["sub" := VStr "5abc"]> (<["iss" := VStr "other"]> ∅)).

Definition text_other_issuer : string :=
  "{" +:+ SampleHost.quote +:+ "sub" +:+ SampleHost.quote +:+ ":"
  +:+ SampleHost.quote +:+ "5abc" +:+ SampleHost.quote +:+ ","
  +:+ SampleHost.quote +:+ "iss" +:+ SampleHost.quote +:+ ":"
  +:+ SampleHost.quote +:+ "other" +:+ SampleHost.quote +:+ "}".

Definition token_other_issuer : string :=
  "eyJhbGciOiJFZERTQSJ9.eyJzdWIiOiI1YWJjIiwiaXNzIjoib3RoZXIifQ.AA".

Definition host_other_issuer : Host :=
  TableHost.host [(text_other_issuer, payload_other_issuer)].

(** The header {"alg":{"toString":1}}, its text, and a token with the
    payload {"sub":"5abc"} that carries it. *)
Definition header_alg_object : value :=
  VObj (<["alg" := VObj (<["toString" := VNum 1]> ∅)]> ∅).

Definition text_alg_object : string :=
  "{" +:+ SampleHost.quote +:+ "alg" +:+ SampleHost.quote +:+ ":{"
  +:+ SampleHost.quote +:+ "toString" +:+ SampleHost.quote +:+ ":1}}".

Definition token_alg_object : string :=
  "eyJhbGciOnsidG9TdHJpbmciOjF9fQ.eyJzdWIiOiI1YWJjIn0.AA".

Definition host_alg_object : Host :=
  TableHost.host [(text_alg_object, header_alg_object)].

(** The payload that [generateToken] builds for [Examples.key_01] at second
    1700000000 with every option left out, and a host that parses what it
    serialises of this payload and of the header. *)
Definition payload_01 : gmap string value :=
  payload_of 1700000000 2592000 "sensespace" None Examples.address_01 ∅.

Definition host_round_trip : Host :=
  TableHost.host
    [(SampleHost.stringify (VObj header_EdDSA), VObj header_EdDSA);
     (SampleHost.stringify (VObj payload_01), VObj payload_01)].

(** A world with the clock of [SampleHost.offline] whose network answers
    every request with the document {}. *)
Definition online : world :=
  {| Date_now := 1700000000000;
     fetch := fun _ => Return {| ok := true; json := Return (VObj ∅) |} |}.

(** Claims whose [exp] is a string. *)
Definition claims_exp_string : gmap string value := <["exp" := VStr "soon"]> ∅.

(** Claims not valid before second 100, and claims issued at second 50. *)
Definition claims_nbf_100 : value := VObj (<["nbf" := VNum 100]> ∅).
Definition claims_iat_50 : value := VObj (<["iat" := VNum 50]> ∅).

(** Options objects: none given, and an allow-list given as [undefined]. *)
Definition no_keys : OptionsObject :=
  {| key_didBaseUrl := None; key_allowedIssuers := None; key_maxTokenAge := None |}.
End MoreExamples.

(** * Properties *)

(** ** Facts on positional notation *)

Section RadixFacts.
#[local] Open Scope N_scope.
Variable base : N.
#[local] Abbreviation to_digits_le := (Radix.to_digits_le base).
#[local] Abbreviation from_digits_le := (Radix.from_digits_le base).
#[local] Abbreviation to_digits := (Radix.to_digits base).
#[local] Abbreviation from_digits := (Radix.from_digits base).
#[local] Abbreviation digits_ok := (Radix.digits_ok base).
#[local] Abbreviation top_nonzero := Radix.top_nonzero.
Hypothesis base_gt1 : 1 < base.

Lemma from_digits_le_rev ds : from_digits ds = from_digits_le (rev ds).
Proof.
  unfold Radix.from_digits, Radix.from_digits_le.
  rewrite <- fold_left_rev_right.
  induction (rev ds) as [|d l IH]; simpl; [reflexivity|].
  rewrite IH. lia.
Qed.

Lemma top_nonzero_pos d ds :
  top_nonzero (d :: ds) -> 0 < from_digits_le (d :: ds).
Proof.
  revert d. induction ds as [|e ds IH]; intros d H; simpl in *.
  - lia.
  - specialize (IH e H). simpl in IH. nia.
Qed.

Lemma top_nonzero_tail d ds : top_nonzero (d :: ds) -> top_nonzero ds.
Proof. destruct ds; simpl; auto. Qed.

Lemma div_lt_pow2 n fuel :
  n <> 0 -> n < 2 ^ N.of_nat (S fuel) -> n / base < 2 ^ N.of_nat fuel.
Proof.
  intros Hn Hlt.
  rewrite Nat2N.inj_succ, N.pow_succ_r' in Hlt.
  apply N.Div0.div_lt_upper_bound.
  assert (0 < 2 ^ N.of_nat fuel) by (apply N.neq_0_lt_0, N.pow_nonzero; lia).
  nia.
Qed.

(** Digits of a number, read back, give the number. *)
Lemma from_to_digits_le fuel n :
  n < 2 ^ N.of_nat fuel -> from_digits_le (to_digits_le fuel n) = n.
Proof.
  revert n. induction fuel as [|fuel IH]; intros n Hlt.
  - simpl in *. lia.
  - cbn [Radix.to_digits_le]. destruct (N.eqb_spec n 0) as [->|Hn]; [reflexivity|].
    cbn [Radix.from_digits_le fold_right].
    fold (from_digits_le (to_digits_le fuel (n / base))).
    rewrite IH by (apply div_lt_pow2; assumption).
    pose proof (N.div_mod n base ltac:(lia)). lia.
Qed.

Lemma to_digits_le_ok fuel n : digits_ok (to_digits_le fuel n).
Proof.
  revert n. induction fuel as [|fuel IH]; intros n; simpl.
  - constructor.
  - destruct (N.eqb n 0); constructor; [|apply IH].
    apply N.mod_lt. lia.
Qed.

Lemma to_digits_le_top fuel n :
  n < 2 ^ N.of_nat fuel -> top_nonzero (to_digits_le fuel n).
Proof.
  revert n. induction fuel as [|fuel IH]; intros n Hlt; [exact I|].
  cbn [Radix.to_digits_le]. destruct (N.eqb_spec n 0) as [->|Hn]; [exact I|].
  assert (Hq : n / base < 2 ^ N.of_nat fuel) by (apply div_lt_pow2; assumption).
  specialize (IH _ Hq).
  destruct (to_digits_le fuel (n / base)) as [|e l] eqn:E; [|exact IH].
  simpl.
  assert (n / base = 0).
  { rewrite <- (from_to_digits_le fuel (n / base)) by assumption.
    rewrite E. reflexivity. }
  pose proof (N.div_mod n base ltac:(lia)). intros Hm. nia.
Qed.

(** The digits of a number are unique: a list of digits without a zero at
    its top is the list of digits of its value. *)
Lemma to_from_digits_le fuel ds :
  digits_ok ds -> top_nonzero ds -> from_digits_le ds < 2 ^ N.of_nat fuel ->
  to_digits_le fuel (from_digits_le ds) = ds.
Proof.
  revert ds. induction fuel as [|fuel IH]; intros ds Hok Htop Hlt.
  - destruct ds as [|d ds]; [reflexivity|].
    pose proof (top_nonzero_pos _ _ Htop).
    change (2 ^ N.of_nat 0) with 1 in Hlt. lia.
  - destruct ds as [|d ds]; [reflexivity|].
    pose proof (top_nonzero_pos _ _ Htop) as Hpos.
    cbn [Radix.to_digits_le].
    destruct (N.eqb_spec (from_digits_le (d :: ds)) 0) as [E|_]; [lia|].
    inversion Hok as [|? ? Hd Hds]; subst.
    assert (Hdiv : from_digits_le (d :: ds) / base = from_digits_le ds).
    { cbn [Radix.from_digits_le fold_right]. fold (from_digits_le ds).
      symmetry. apply (N.div_unique _ base _ d); [assumption|lia]. }
    assert (Hmod : from_digits_le (d :: ds) mod base = d).
    { cbn [Radix.from_digits_le fold_right]. fold (from_digits_le ds).
      symmetry. apply (N.mod_unique _ base (from_digits_le ds)); [assumption|lia]. }
    rewrite Hmod, Hdiv. f_equal.
    apply IH; [assumption|eapply top_nonzero_tail; eassumption|].
    rewrite <- Hdiv. apply div_lt_pow2; lia.
Qed.

Lemma size_fuel n : n < 2 ^ N.of_nat (N.to_nat (N.size n)).
Proof. rewrite N2Nat.id. apply N.size_gt. Qed.

Lemma from_to_digits n : from_digits (to_digits n) = n.
Proof.
  unfold Radix.to_digits. rewrite from_digits_le_rev, rev_involutive.
  apply from_to_digits_le, size_fuel.
Qed.

Lemma to_from_digits ds :
  digits_ok ds -> top_nonzero (rev ds) -> to_digits (from_digits ds) = ds.
Proof.
  intros Hok Htop. unfold Radix.to_digits. rewrite from_digits_le_rev.
  rewrite to_from_digits_le.
  - apply rev_involutive.
  - apply List.Forall_rev. assumption.
  - assumption.
  - apply size_fuel.
Qed.

Lemma to_digits_ok n : digits_ok (to_digits n).
Proof.
  unfold Radix.to_digits. apply List.Forall_rev, to_digits_le_ok.
Qed.

Lemma to_digits_top n : top_nonzero (rev (to_digits n)).
Proof.
  unfold Radix.to_digits. rewrite rev_involutive.
  apply to_digits_le_top, size_fuel.
Qed.

(** Leading zeros do not change the value of a big-endian list. *)
Lemma from_digits_leading_zeros k ds :
  from_digits (repeat 0 k ++ ds) = from_digits ds.
Proof.
  unfold Radix.from_digits. rewrite fold_left_app.
  replace (fold_left (fun acc d => acc * base + d) (repeat 0 k) 0) with 0;
    [reflexivity|].
  induction k as [|k IH]; simpl; [reflexivity|]. exact IH.
Qed.

(** A big-endian list that is empty or starts with a non-zero digit has
    no zero at its top. *)
Lemma top_nonzero_rev_cons d ds : d <> 0 -> top_nonzero (rev (d :: ds)).
Proof.
  intros Hd. simpl.
  induction (rev ds) as [|e l IH]; simpl; [assumption|].
  destruct l; simpl in *; assumption.
Qed.

Lemma top_nonzero_rev_head d ds : top_nonzero (rev (d :: ds)) -> d <> 0.
Proof.
  simpl. induction (rev ds) as [|e l IH]; simpl; [auto|].
  destruct l; simpl in *; auto.
Qed.
End RadixFacts.

(** ** The base-58 codec decodes what it encodes *)

Section Bs58Facts.
#[local] Open Scope N_scope.

Lemma digit_of_char_of_digit d :
  d < bs58.BASE -> bs58.digit_of_char (bs58.char_of_digit d) = Some d.
Proof.
  intros Hd.
  assert (Hall : forallb
            (fun k => match bs58.digit_of_char (bs58.char_of_digit k) with
                      | Some k' => N.eqb k k'
                      | None => false
                      end)
            (map N.of_nat (seq 0 58)) = true) by (vm_compute; reflexivity).
  rewrite forallb_forall in Hall.
  specialize (Hall d).
  destruct (bs58.digit_of_char (bs58.char_of_digit d)) as [k|].
  - f_equal. symmetry. apply N.eqb_eq, Hall.
    apply in_map_iff. exists (N.to_nat d). split; [apply N2Nat.id|].
    apply in_seq. unfold bs58.BASE in Hd. lia.
  - exfalso. assert (false = true); [|discriminate].
    apply Hall, in_map_iff. exists (N.to_nat d). split; [apply N2Nat.id|].
    apply in_seq. unfold bs58.BASE in Hd. lia.
Qed.

Lemma digits_of_chars_app cs1 cs2 ds1 ds2 :
  bs58.digits_of_chars cs1 = Some ds1 ->
  bs58.digits_of_chars cs2 = Some ds2 ->
  bs58.digits_of_chars (cs1 ++ cs2) = Some (ds1 ++ ds2).
Proof.
  revert ds1. induction cs1 as [|c cs1 IH]; intros ds1 H1 H2; simpl in *.
  - injection H1 as <-. exact H2.
  - destruct (bs58.digit_of_char c) as [d|]; [|discriminate].
    destruct (bs58.digits_of_chars cs1) as [ds|]; [|discriminate].
    injection H1 as <-. rewrite (IH ds eq_refl H2). reflexivity.
Qed.

Lemma digits_of_chars_leader k :
  bs58.digits_of_chars (repeat bs58.LEADER k) = Some (repeat 0 k).
Proof.
  induction k as [|k IH]; [reflexivity|].
  cbn [repeat bs58.digits_of_chars]. rewrite IH. reflexivity.
Qed.

Lemma digits_of_chars_map ds :
  Radix.digits_ok bs58.BASE ds ->
  bs58.digits_of_chars (map bs58.char_of_digit ds) = Some ds.
Proof.
  induction 1 as [|d ds Hd _ IH]; [reflexivity|].
  cbn [map bs58.digits_of_chars].
  rewrite (digit_of_char_of_digit d Hd), IH. reflexivity.
Qed.

(** Counting leading zeros, and what is left after them. *)
Lemma zeroes_repeat k ds :
  bs58.zeroes (repeat 0 k ++ ds) = (k + bs58.zeroes ds)%nat.
Proof. induction k as [|k IH]; simpl; [reflexivity|]. rewrite IH. reflexivity. Qed.

Lemma zeroes_top ds : Radix.top_nonzero (rev ds) -> bs58.zeroes ds = O.
Proof.
  destruct ds as [|d ds]; [reflexivity|]. intros Htop.
  apply top_nonzero_rev_head in Htop.
  simpl. destruct (N.eqb_spec d 0); [contradiction|reflexivity].
Qed.

Lemma skipn_zeroes_top ds : Radix.top_nonzero (rev (skipn (bs58.zeroes ds) ds)).
Proof.
  induction ds as [|d ds IH]; [exact I|].
  cbn [bs58.zeroes]. destruct (N.eqb_spec d 0) as [->|Hd].
  - exact IH.
  - apply top_nonzero_rev_cons. assumption.
Qed.

Lemma skipn_repeat_app {A : Type} (x : A) k l : skipn k (repeat x k ++ l) = l.
Proof. induction k as [|k IH]; simpl; auto. Qed.

Lemma byte_of_to_N b : bs58.byte_of_N (Byte.to_N b) = b.
Proof. unfold bs58.byte_of_N. rewrite Byte.of_to_N. reflexivity. Qed.

Lemma to_N_x00 b : Byte.to_N b = 0 -> b = x00.
Proof.
  intros Hb. rewrite <- (byte_of_to_N b), Hb. reflexivity.
Qed.

Lemma bytes_digits_ok bs : Radix.digits_ok 256 (map Byte.to_N bs).
Proof.
  induction bs as [|b bs IH]; constructor; [|exact IH].
  pose proof (Byte.to_N_bounded b). lia.
Qed.

Lemma zeroes_split bs :
  repeat x00 (bs58.zeroes (map Byte.to_N bs))
    ++ skipn (bs58.zeroes (map Byte.to_N bs)) bs = bs.
Proof.
  induction bs as [|b bs IH]; [reflexivity|].
  cbn [map bs58.zeroes]. destruct (N.eqb_spec (Byte.to_N b) 0) as [Hb|Hb].
  - cbn [repeat skipn app]. rewrite IH. f_equal. symmetry. apply to_N_x00, Hb.
  - reflexivity.
Qed.

Lemma decode_encode (source : list byte) :
  bs58.decode (bs58.encode source) = Return source.
Proof.
  unfold bs58.encode, bs58.decode.
  set (digits := map Byte.to_N source).
  set (z := bs58.zeroes digits).
  set (n := Radix.from_digits 256 (skipn z digits)).
  rewrite list_ascii_of_string_of_list_ascii.
  pose proof (to_digits_ok bs58.BASE ltac:(reflexivity) n) as Hok.
  pose proof (to_digits_top bs58.BASE ltac:(reflexivity) n) as Htop.
  rewrite (digits_of_chars_app _ _ _ _ (digits_of_chars_leader z)
             (digits_of_chars_map _ Hok)).
  rewrite zeroes_repeat, (zeroes_top _ Htop), Nat.add_0_r.
  rewrite skipn_repeat_app, (from_to_digits bs58.BASE ltac:(reflexivity)).
  unfold n. rewrite (to_from_digits 256 ltac:(reflexivity)).
  - subst digits. rewrite skipn_map, map_map.
    rewrite (map_ext _ (fun b => b) byte_of_to_N), map_id.
    f_equal. apply zeroes_split.
  - apply Forall_drop, bytes_digits_ok.
  - apply skipn_zeroes_top.
Qed.
End Bs58Facts.

(** ** The address codec *)

Lemma slice_length {A : Type} (l : list A) start stop :
  stop <= List.length l -> List.length (slice l start stop) = stop - start.
Proof.
  intros Hstop. unfold slice. rewrite length_take, length_drop. lia.
Qed.

Lemma slice_middle {A : Type} (l1 l2 l3 : list A) :
  slice (l1 ++ l2 ++ l3) (List.length l1) (List.length l1 + List.length l2) = l2.
Proof.
  unfold slice. rewrite drop_app_length.
  replace (List.length l1 + List.length l2 - List.length l1) with (List.length l2) by lia.
  apply take_app_length.
Qed.

Lemma inferred_prefix_length_eq n : 35 <= n -> inferred_prefix_length n = n - 34.
Proof.
  intros Hn. unfold inferred_prefix_length.
  destruct (Nat.eqb_spec n 35) as [->|_]; [reflexivity|].
  destruct (Nat.eqb_spec n 36) as [->|_]; reflexivity.
Qed.

(** What [ss58DecodePublicKey] does once the base-58 text is decoded. *)
Lemma ss58DecodePublicKey_raw ss58Addr raw :
  bs58.decode ss58Addr = Return raw ->
  ss58DecodePublicKey ss58Addr =
    if (List.length raw <? 35)%nat then Throw (too_short (List.length raw))
    else Return (slice raw (inferred_prefix_length (List.length raw))
                   (inferred_prefix_length (List.length raw) + 32)).
Proof.
  intros Hraw. unfold ss58DecodePublicKey. rewrite Hraw. cbn [mbind result_bind].
  change (1 + 32 + 2) with 35. change (2 + 32 + 2) with 36.
  destruct (Nat.ltb_spec (List.length raw) 35) as [Hlt|Hge]; [reflexivity|].
  cbn [throw_if].
  replace (List.length raw - 32 - 2) with (List.length raw - 34) by lia.
  fold (inferred_prefix_length (List.length raw)).
  rewrite slice_length
    by (rewrite inferred_prefix_length_eq by assumption; lia).
  replace (inferred_prefix_length (List.length raw) + 32
           - inferred_prefix_length (List.length raw)) with 32 by lia.
  reflexivity.
Qed.

(** An address whose raw form is a prefix, 32 bytes and two more bytes
    decodes to the 32 bytes. *)
Lemma ss58DecodePublicKey_fields ss58Addr (prefix key checksum : list byte) :
  bs58.decode ss58Addr = Return (prefix ++ key ++ checksum) ->
  1 <= List.length prefix -> List.length key = 32 -> List.length checksum = 2 ->
  ss58DecodePublicKey ss58Addr = Return key.
Proof.
  intros Hraw Hp Hk Hc. rewrite (ss58DecodePublicKey_raw _ _ Hraw).
  assert (Hlen : List.length (prefix ++ key ++ checksum) = List.length prefix + 34)
    by (rewrite !length_app; lia).
  destruct (Nat.ltb_spec (List.length (prefix ++ key ++ checksum)) 35) as [Hlt|Hge];
    [lia|].
  f_equal. rewrite inferred_prefix_length_eq by assumption.
  replace (List.length (prefix ++ key ++ checksum) - 34) with (List.length prefix) by lia.
  rewrite <- Hk. apply slice_middle.
Qed.

(** C2. Once the address is base-58 decoded to [raw], [ss58DecodePublicKey]
    throws the too-short error exactly when [raw] has fewer than 35 bytes;
    otherwise it returns the 32 bytes that follow a prefix of length 1 (35
    bytes), 2 (36 bytes) or [length raw - 34]. The last two bytes are never
    looked at: whatever they are, an address whose raw form is a prefix, a
    32-byte key and two more bytes decodes to that key. *)
Theorem ss58DecodePublicKey_spec (ss58Addr : string) (raw : list byte) :
  bs58.decode ss58Addr = Return raw ->
  (ss58DecodePublicKey ss58Addr = Throw (too_short (List.length raw))
     <-> List.length raw < 35)
  /\ (35 <= List.length raw ->
      ss58DecodePublicKey ss58Addr =
        Return (slice raw (inferred_prefix_length (List.length raw))
                  (inferred_prefix_length (List.length raw) + 32)))
  /\ (forall prefix key checksum : list byte,
        raw = prefix ++ key ++ checksum ->
        1 <= List.length prefix -> List.length key = 32 ->
        List.length checksum = 2 ->
        ss58DecodePublicKey ss58Addr = Return key).
Proof.
  intros Hraw. split; [|split].
  - rewrite (ss58DecodePublicKey_raw _ _ Hraw).
    destruct (Nat.ltb_spec (List.length raw) 35) as [Hlt|Hge].
    + tauto.
    + split; [discriminate|lia].
  - intros Hge. rewrite (ss58DecodePublicKey_raw _ _ Hraw).
    destruct (Nat.ltb_spec (List.length raw) 35) as [Hlt|_]; [lia|reflexivity].
  - intros prefix key checksum -> Hp Hk Hc.
    eapply ss58DecodePublicKey_fields; eassumption.
Qed.

(** C10. The branch 'Decoded public key is not 32 bytes' is never taken:
    when the raw form has at least 35 bytes the slice taken has exactly 32,
    so a decoded address gives the too-short error or a 32-byte key, and no
    address at all gives the key-length error. *)
Theorem ss58DecodePublicKey_key_length (ss58Addr : string) :
  ss58DecodePublicKey ss58Addr <> Throw (Error "Decoded public key is not 32 bytes")
  /\ (forall raw : list byte, bs58.decode ss58Addr = Return raw ->
        (35 <= List.length raw ->
         List.length (slice raw (inferred_prefix_length (List.length raw))
                        (inferred_prefix_length (List.length raw) + 32)) = 32)
        /\ (ss58DecodePublicKey ss58Addr = Throw (too_short (List.length raw))
            \/ exists key, ss58DecodePublicKey ss58Addr = Return key
                           /\ List.length key = 32)).
Proof.
  assert (Hlen : forall raw : list byte, 35 <= List.length raw ->
            List.length (slice raw (inferred_prefix_length (List.length raw))
                           (inferred_prefix_length (List.length raw) + 32)) = 32).
  { intros raw Hge. rewrite slice_length; rewrite inferred_prefix_length_eq; lia. }
  split.
  - destruct (bs58.decode ss58Addr) as [raw|e] eqn:Hraw.
    + rewrite (ss58DecodePublicKey_raw _ _ Hraw).
      destruct (List.length raw <? 35)%nat; discriminate.
    + unfold ss58DecodePublicKey. rewrite Hraw. cbn [mbind result_bind].
      unfold bs58.decode in Hraw.
      destruct (bs58.digits_of_chars _); [discriminate|].
      injection Hraw as <-. discriminate.
  - intros raw Hraw. split; [apply Hlen|].
    rewrite (ss58DecodePublicKey_raw _ _ Hraw).
    destruct (Nat.ltb_spec (List.length raw) 35) as [Hlt|Hge]; [left; reflexivity|].
    right. eexists. split; [reflexivity|]. apply Hlen. assumption.
Qed.

Section AddressRoundTrip.
Context `{Host}.

Lemma generateSS58Address_decode (publicKey : list byte) (prefix : option Z) :
  bs58.decode (generateSS58Address publicKey prefix)
  = Return ([byte_of_Z (default 42%Z prefix)] ++ publicKey
              ++ slice (blake2b 64 ([byte_of_Z (default 42%Z prefix)] ++ publicKey)) 0 2).
Proof. unfold generateSS58Address. apply decode_encode. Qed.

(** C1. For every 32-byte public key and every prefix (given, or the
    default), decoding the generated address returns the key, and encoding
    what was decoded with the same prefix gives the same address again. *)
Theorem address_round_trip (publicKey : list byte) (prefix : option Z) :
  List.length publicKey = 32 ->
  ss58DecodePublicKey (generateSS58Address publicKey prefix) = Return publicKey
  /\ (forall decoded,
        ss58DecodePublicKey (generateSS58Address publicKey prefix) = Return decoded ->
        generateSS58Address decoded prefix = generateSS58Address publicKey prefix).
Proof.
  intros Hlen.
  assert (Hdec : ss58DecodePublicKey (generateSS58Address publicKey prefix)
                 = Return publicKey).
  { apply (ss58DecodePublicKey_fields _ [byte_of_Z (default 42%Z prefix)] publicKey
             (slice (blake2b 64 ([byte_of_Z (default 42%Z prefix)] ++ publicKey)) 0 2)).
    - apply generateSS58Address_decode.
    - simpl. lia.
    - assumption.
    - rewrite slice_length; [reflexivity|]. rewrite blake2b_length. lia. }
  split; [exact Hdec|].
  intros decoded Hdecoded. rewrite Hdec in Hdecoded.
  injection Hdecoded as <-. reflexivity.
Qed.
End AddressRoundTrip.

Lemma ss58DecodePublicKey_spec_witness :
  bs58.decode Examples.alice = Return Examples.alice_raw
  /\ ss58DecodePublicKey Examples.alice = Return Examples.alice_key.
Proof.
  assert (Hraw : bs58.decode Examples.alice = Return Examples.alice_raw)
    by (vm_compute; reflexivity).
  split; [exact Hraw|].
  destruct (ss58DecodePublicKey_spec Examples.alice Examples.alice_raw Hraw)
    as (_ & _ & Hkey).
  apply (Hkey [x2a] Examples.alice_key [x1d; x21]).
  - reflexivity.
  - vm_compute. lia.
  - vm_compute. reflexivity.
  - reflexivity.
Defined.

(** Two other checksum bytes change nothing. *)
Example tampered_checksum_decodes :
  ss58DecodePublicKey Examples.alice_tampered = Return Examples.alice_key.
Proof. vm_compute. reflexivity. Qed.

Lemma ss58DecodePublicKey_key_length_witness :
  bs58.decode Examples.alice = Return Examples.alice_raw
  /\ List.length (slice Examples.alice_raw 1 33) = 32.
Proof.
  assert (Hraw : bs58.decode Examples.alice = Return Examples.alice_raw)
    by (vm_compute; reflexivity).
  split; [exact Hraw|].
  destruct (ss58DecodePublicKey_key_length Examples.alice) as (_ & Hall).
  destruct (Hall Examples.alice_raw Hraw) as (Hlen & _).
  apply Hlen. vm_compute. lia.
Defined.

Lemma address_round_trip_witness :
  List.length Examples.alice_key = 32
  /\ ss58DecodePublicKey
       (generateSS58Address (H := SampleHost.host) Examples.alice_key (Some 42%Z))
     = Return Examples.alice_key.
Proof.
  assert (Hlen : List.length Examples.alice_key = 32) by (vm_compute; reflexivity).
  split; [exact Hlen|].
  exact (proj1 (address_round_trip (H := SampleHost.host)
                  Examples.alice_key (Some 42%Z) Hlen)).
Defined.

(** ** The time claims *)

Section TokenTimes.
#[local] Open Scope Z_scope.

(** One guarded check of [validateTokenTimes]: the guard lets a number
    other than zero through, and nothing else. *)
Lemma guarded_check (v : value) (fails : Z -> bool) (message : string) :
  (if truthy v && is_number v then throw_if (fails (number_of v)) message else Return tt)
  = match v with
    | VNum n => if n =? 0 then Return tt else throw_if (fails n) message
    | _ => Return tt
    end.
Proof.
  destruct v as [| |b|n|s|l|o]; simpl; try reflexivity.
  - destruct b; reflexivity.
  - destruct (n =? 0); reflexivity.
  - destruct (String.eqb s ""); reflexivity.
Qed.

(** A property can be read from a value as soon as one can. *)
Lemma get_prop_Return payload key v key' :
  get_prop payload key = Return v -> exists v', get_prop payload key' = Return v'.
Proof. destruct payload; simpl; intros; try discriminate; eauto. Qed.

Lemma get_prop_Throw payload key e :
  get_prop payload key = Throw e ->
  e <> Error "Token expired" /\ e <> Error "Token not yet valid"
  /\ e <> Error "Token too old".
Proof.
  destruct payload; simpl; intros [= <-]; repeat split; discriminate.
Qed.

(** The outcome of [validateTokenTimes] on a value that has properties, in
    terms of the three claims. *)
Lemma validateTokenTimes_claims w payload maxAge exp nbf iat :
  get_prop payload "exp" = Return exp ->
  get_prop payload "nbf" = Return nbf ->
  get_prop payload "iat" = Return iat ->
  validateTokenTimes w payload maxAge =
    let now := Date_now w / 1000 in
    _ ← match exp with
        | VNum n => if n =? 0 then Return tt else throw_if (now >=? n) "Token expired"
        | _ => Return tt
        end;
    _ ← match nbf with
        | VNum n => if n =? 0 then Return tt else throw_if (now <? n) "Token not yet valid"
        | _ => Return tt
        end;
    match maxAge with
    | Some maxAge =>
        if maxAge =? 0 then Return tt
        else match iat with
             | VNum n => if n =? 0 then Return tt
                         else throw_if (now >? n + maxAge) "Token too old"
             | _ => Return tt
             end
    | None => Return tt
    end.
Proof.
  intros Hexp Hnbf Hiat. unfold validateTokenTimes.
  rewrite Hexp, Hnbf. cbn [mbind result_bind].
  rewrite (guarded_check exp (fun n => Date_now w / 1000 >=? n)).
  rewrite (guarded_check nbf (fun n => Date_now w / 1000 <? n)).
  destruct maxAge as [maxAge|]; [|reflexivity].
  destruct (maxAge =? 0); cbn [negb]; [reflexivity|].
  rewrite Hiat. cbn [mbind result_bind].
  rewrite (guarded_check iat (fun n => Date_now w / 1000 >? n + maxAge)).
  reflexivity.
Qed.
(** Boolean comparisons among the hypotheses, as propositions. *)
Ltac Z_bools :=
  repeat match goal with
  | H : (_ =? _) = false |- _ => apply Z.eqb_neq in H
  | H : (_ =? _) = true |- _ => apply Z.eqb_eq in H
  | H : (_ >=? _) = true |- _ => apply Z.geb_le in H
  | H : (_ <? _) = true |- _ => apply Z.ltb_lt in H
  | H : (_ >? _) = true |- _ => rewrite Z.gtb_ltb in H; apply Z.ltb_lt in H
  end.

(** Case analysis over the guarded checks of the goal. *)
Ltac settle_checks :=
  unfold throw_if;
  repeat (cbn [mbind result_bind];
          match goal with
          | |- context [match ?v with VNum _ => _ | _ => _ end] => destruct v
          | |- context [match ?o with Some _ => _ | None => _ end] => destruct o
          | |- context [if ?b then _ else _] => destruct b eqn:?
          end);
  cbn [mbind result_bind]; try discriminate; Z_bools.

(** Reading a property failed: the error is the one of the read. *)
Lemma validateTokenTimes_Throw w payload maxAge e :
  get_prop payload "exp" = Throw e -> validateTokenTimes w payload maxAge = Throw e.
Proof. intros Hexp. unfold validateTokenTimes. rewrite Hexp. reflexivity. Qed.

(** When is the token reported as expired: exactly when [exp] is a number
    other than zero that the clock has reached. *)
Lemma expired_iff w payload maxAge :
  validateTokenTimes w payload maxAge = Throw (Error "Token expired")
  <-> exists exp, get_prop payload "exp" = Return (VNum exp)
                  /\ exp <> 0 /\ exp <= Date_now w / 1000.
Proof.
  destruct (get_prop payload "exp") as [exp|e] eqn:Hexp.
  - destruct (get_prop_Return _ _ _ "nbf" Hexp) as [nbf Hnbf].
    destruct (get_prop_Return _ _ _ "iat" Hexp) as [iat Hiat].
    rewrite (validateTokenTimes_claims _ _ _ _ _ _ Hexp Hnbf Hiat). cbn zeta.
    split.
    + settle_checks.
      all: intros _; eexists; split; [reflexivity|]; lia.
    + intros (n & [= ->] & Hn & Hle).
      destruct (Z.eqb_spec n 0) as [|_]; [contradiction|].
      destruct (Z.geb_spec (Date_now w / 1000) n) as [_|Hlt]; [reflexivity|lia].
  - rewrite (validateTokenTimes_Throw _ _ _ _ Hexp).
    destruct (get_prop_Throw _ _ _ Hexp) as (Hne & _).
    split; [congruence|]. intros (n & Hn & _). discriminate.
Qed.

(** A token reported as not yet valid has an [nbf] other than zero that the
    clock has not reached. *)
Lemma not_yet_valid_only_if w payload maxAge :
  validateTokenTimes w payload maxAge = Throw (Error "Token not yet valid") ->
  exists nbf, get_prop payload "nbf" = Return (VNum nbf)
              /\ nbf <> 0 /\ Date_now w / 1000 < nbf.
Proof.
  destruct (get_prop payload "exp") as [exp|e] eqn:Hexp.
  - destruct (get_prop_Return _ _ _ "nbf" Hexp) as [nbf Hnbf].
    destruct (get_prop_Return _ _ _ "iat" Hexp) as [iat Hiat].
    rewrite (validateTokenTimes_claims _ _ _ _ _ _ Hexp Hnbf Hiat). cbn zeta.
    rewrite Hnbf. settle_checks.
    all: intros _; eexists; split; [reflexivity|]; lia.
  - rewrite (validateTokenTimes_Throw _ _ _ _ Hexp).
    destruct (get_prop_Throw _ _ _ Hexp) as (_ & Hne & _). congruence.
Qed.

(** A token reported as too old was checked against a [maxAge] other than
    zero and has an [iat] other than zero that is more than [maxAge] back. *)
Lemma too_old_only_if w payload maxAge :
  validateTokenTimes w payload maxAge = Throw (Error "Token too old") ->
  exists age iat, maxAge = Some age /\ age <> 0
                  /\ get_prop payload "iat" = Return (VNum iat)
                  /\ iat <> 0 /\ iat + age < Date_now w / 1000.
Proof.
  destruct (get_prop payload "exp") as [exp|e] eqn:Hexp.
  - destruct (get_prop_Return _ _ _ "nbf" Hexp) as [nbf Hnbf].
    destruct (get_prop_Return _ _ _ "iat" Hexp) as [iat Hiat].
    rewrite (validateTokenTimes_claims _ _ _ _ _ _ Hexp Hnbf Hiat). cbn zeta.
    rewrite Hiat. settle_checks.
    all: intros _; do 2 eexists.
    all: split; [reflexivity|]; split; [lia|]; split; [reflexivity|]; lia.
  - rewrite (validateTokenTimes_Throw _ _ _ _ Hexp).
    destruct (get_prop_Throw _ _ _ Hexp) as (_ & _ & Hne). congruence.
Qed.
(** C3, as amended. When [exp] is a number other than zero,
    [validateTokenTimes] fails with 'Token expired' whenever the clock has
    reached it, and does not fail so before: a token with [exp = now] is
    expired, one with [exp = now + 1] passes the expiry check. *)
Theorem expiry_boundary w payload maxAge (exp : Z) :
  get_prop payload "exp" = Return (VNum exp) ->
  exp <> 0 ->
  let now := Date_now w / 1000 in
  (now >= exp -> validateTokenTimes w payload maxAge = Throw (Error "Token expired"))
  /\ (exp = now -> validateTokenTimes w payload maxAge = Throw (Error "Token expired"))
  /\ (exp = now + 1 ->
      validateTokenTimes w payload maxAge <> Throw (Error "Token expired")).
Proof.
  intros Hexp Hnz now.
  assert (Hreached : now >= exp ->
            validateTokenTimes w payload maxAge = Throw (Error "Token expired")).
  { intros Hge. apply expired_iff. exists exp. subst now.
    split; [assumption|]. split; [assumption|lia]. }
  split; [exact Hreached|]. split.
  - intros ->. apply Hreached. lia.
  - intros -> Hthrow. apply expired_iff in Hthrow as (e & He & _ & Hle).
    rewrite Hexp in He. injection He as <-. subst now. lia.
Qed.

Lemma expiry_boundary_witness :
  validateTokenTimes (SampleHost.at_time 100) Examples.claims_exp_100 None
    = Throw (Error "Token expired")
  /\ validateTokenTimes (SampleHost.at_time 99) Examples.claims_exp_100 None
     <> Throw (Error "Token expired").
Proof.
  split.
  - apply (expiry_boundary (SampleHost.at_time 100) Examples.claims_exp_100 None 100).
    + reflexivity.
    + lia.
    + reflexivity.
  - apply (expiry_boundary (SampleHost.at_time 99) Examples.claims_exp_100 None 100).
    + reflexivity.
    + lia.
    + reflexivity.
Defined.

(** C3 as stated fails: [exp = 0] is present and numeric and the clock is
    past it, and yet the token is accepted. *)
Lemma expiry_of_zero_counterexample :
  get_prop Examples.claims_zero "exp" = Return (VNum 0)
  /\ Date_now SampleHost.offline / 1000 >= 0
  /\ validateTokenTimes SampleHost.offline Examples.claims_zero None = Return tt.
Proof. repeat split. vm_compute. discriminate. Qed.

(** C4, as amended. [validateTokenTimes] reads the clock itself; its
    outcome is a function of the claims, of [maxAge] and of the second the
    clock shows: two calls with the same arguments made within the same
    second have the same outcome, whatever else differs. *)
Theorem validateTokenTimes_same_second w1 w2 payload maxAge :
  Date_now w1 / 1000 = Date_now w2 / 1000 ->
  validateTokenTimes w1 payload maxAge = validateTokenTimes w2 payload maxAge.
Proof. intros Hnow. unfold validateTokenTimes. rewrite Hnow. reflexivity. Qed.

Lemma validateTokenTimes_same_second_witness :
  validateTokenTimes (SampleHost.at_time 99) Examples.claims_exp_100 None
  = validateTokenTimes {| Date_now := 99999; fetch := fun _ => Return {| ok := false; json := Return VNull |} |}
      Examples.claims_exp_100 None.
Proof.
  apply (validateTokenTimes_same_second (SampleHost.at_time 99)).
  reflexivity.
Defined.

(** C4 as stated fails: the same claims and the same [maxAge] are accepted
    at second 50 and rejected at second 100. *)
Lemma validateTokenTimes_clock_counterexample :
  validateTokenTimes (SampleHost.at_time 50) Examples.claims_exp_100 None = Return tt
  /\ validateTokenTimes (SampleHost.at_time 100) Examples.claims_exp_100 None
     = Throw (Error "Token expired").
Proof. split; reflexivity. Qed.

(** C9. A time claim equal to zero switches its own check off: with
    [exp = 0] the token is never reported as expired, with [nbf = 0] never
    as not yet valid, with [iat = 0] never as too old; and [maxAge = 0] is
    the same as no [maxAge], so that no token is then too old. *)
Theorem zero_disables_check w payload maxAge :
  (get_prop payload "exp" = Return (VNum 0) ->
   validateTokenTimes w payload maxAge <> Throw (Error "Token expired"))
  /\ (get_prop payload "nbf" = Return (VNum 0) ->
      validateTokenTimes w payload maxAge <> Throw (Error "Token not yet valid"))
  /\ (get_prop payload "iat" = Return (VNum 0) ->
      validateTokenTimes w payload maxAge <> Throw (Error "Token too old"))
  /\ validateTokenTimes w payload (Some 0) = validateTokenTimes w payload None
  /\ validateTokenTimes w payload (Some 0) <> Throw (Error "Token too old").
Proof.
  repeat split.
  - intros Hexp Hthrow. apply expired_iff in Hthrow as (e & He & Hnz & _).
    congruence.
  - intros Hnbf Hthrow. apply not_yet_valid_only_if in Hthrow as (n & Hn & Hnz & _).
    congruence.
  - intros Hiat Hthrow.
    apply too_old_only_if in Hthrow as (a & n & _ & _ & Hn & Hnz & _).
    congruence.
  - intros Hthrow.
    apply too_old_only_if in Hthrow as (a & n & Ha & Hnz & _).
    congruence.
Qed.

Lemma zero_disables_check_witness :
  validateTokenTimes SampleHost.offline Examples.claims_zero (Some 3600)
    <> Throw (Error "Token expired")
  /\ validateTokenTimes SampleHost.offline Examples.claims_zero (Some 3600)
     <> Throw (Error "Token not yet valid")
  /\ validateTokenTimes SampleHost.offline Examples.claims_zero (Some 3600)
     <> Throw (Error "Token too old").
Proof.
  destruct (zero_disables_check SampleHost.offline Examples.claims_zero (Some 3600))
    as (Hexp & Hnbf & Hiat & _).
  split; [apply Hexp; reflexivity|].
  split; [apply Hnbf; reflexivity|apply Hiat; reflexivity].
Defined.
End TokenTimes.

(** ** Verification *)

Section Verification.
Context `{Host}.

Lemma outcome_bind {A B : Type} (m : io A) (k : A -> io B) :
  outcome (m ≫= k) = match outcome m with
                     | Return a => outcome (k a)
                     | Throw e => Throw e
                     end.
Proof. unfold mbind, io_bind. destruct (outcome m); reflexivity. Qed.

Lemma outcome_bind_Return {A B : Type} (m : io A) (k : A -> io B) b :
  outcome (m ≫= k) = Return b ->
  exists a, outcome m = Return a /\ outcome (k a) = Return b.
Proof.
  rewrite outcome_bind. destruct (outcome m) as [a|e]; [eauto|discriminate].
Qed.

Lemma outcome_try_catch {A : Type} (body : io A) (handler : thrown -> io A) :
  outcome (try_catch body handler) = match outcome body with
                                     | Return a => Return a
                                     | Throw e => outcome (handler e)
                                     end.
Proof. unfold try_catch. destruct (outcome body) eqn:E; [exact E|reflexivity]. Qed.

(** C6. [verifyToken] never throws: for every token, every configuration,
    every host and every state of the world it returns a result, which is
    a success with the claims or a failure with a message. *)
Theorem verifyToken_never_throws (w : world) (token : string)
    (options : TokenVerifierOptions) :
  exists r, outcome (verifyToken w token options) = Return r /\ structured r.
Proof.
  unfold verifyToken. rewrite outcome_try_catch.
  match goal with
  | |- context [match outcome ?body with _ => _ end] =>
      destruct (outcome body) as [r|e] eqn:Hbody
  end.
  - exists r. split; [reflexivity|]. left.
    apply outcome_bind_Return in Hbody as ([[header payload] signatureBytes] & _ & Hbody).
    repeat (apply outcome_bind_Return in Hbody as (? & _ & Hbody); cbn beta zeta in Hbody).
    cbn in Hbody. injection Hbody as <-. cbn. eauto.
  - eexists. split; [reflexivity|]. right. cbn. eauto.
Qed.
Lemma not_EdDSA_true alg : alg <> VStr "EdDSA" -> not_EdDSA alg = true.
Proof.
  intros Hne. destruct alg as [| | | |s| |]; try reflexivity.
  simpl. destruct (String.eqb_spec s "EdDSA") as [->|_]; [contradiction|reflexivity].
Qed.

(** C5, as amended. A token whose header names an algorithm other than
    EdDSA is refused, and nothing leaves the process: no signature is
    checked and no document fetched. The subject is looked at before the
    algorithm, so the message is about the algorithm when the payload has a
    subject that is a non-empty string. It then names the algorithm
    whenever the header's value converts to text, as every string does;
    when the conversion throws, as it does for an object with a key
    [toString], the message is the one of that error. *)
Theorem algorithm_gate (w : world) (token : string) (options : TokenVerifierOptions)
    (header payload : value) (signatureBytes : list byte) (alg : value) :
  splitJWT token = Return (header, payload, signatureBytes) ->
  get_prop header "alg" = Return alg ->
  alg <> VStr "EdDSA" ->
  exists message,
    verifyToken w token options = IO [] (Return (failure message))
    /\ (forall s, get_prop payload "sub" = Return (VStr s) -> s <> "" ->
          (forall text, ToString alg = Return text ->
             message = "Unsupported algorithm: " +:+ text +:+ ", expected EdDSA")
          /\ (forall name, alg = VStr name ->
                message = "Unsupported algorithm: " +:+ name +:+ ", expected EdDSA")
          /\ (forall e, ToString alg = Throw e ->
                message = match e with Error m => m | NonError text => text end)
          /\ (forall o f, alg = VObj o -> o !! "toString" = Some f ->
                message = "Cannot convert object to primitive value")).
Proof.
  intros Hsplit Halg Hne. apply not_EdDSA_true in Hne.
  unfold verifyToken. rewrite Hsplit. cbn [lift mbind io_bind outcome trace app].
  destruct (get_prop payload "sub") as [sub|e] eqn:Hsub.
  - cbn [lift mbind io_bind outcome trace app].
    destruct (negb (truthy sub) || negb (is_string sub)) eqn:Hguard.
    + eexists. split; [reflexivity|].
      intros s [= ->] Hs. exfalso. simpl in Hguard.
      destruct (String.eqb_spec s ""); [contradiction|discriminate].
    + cbn [throw_if lift mbind io_bind outcome trace app].
      rewrite Halg. cbn [lift mbind io_bind outcome trace app].
      rewrite Hne. unfold throw_template.
      destruct (ToString alg) as [text|e] eqn:Htext.
      * eexists. split; [reflexivity|]. intros s _ _. repeat split.
        -- intros text' [= <-]. reflexivity.
        -- intros name ->. cbn in Htext. injection Htext as <-. reflexivity.
        -- intros e He. discriminate He.
        -- intros o f -> Hf. cbn in Htext. rewrite Hf in Htext. discriminate Htext.
      * eexists. split; [reflexivity|]. intros s _ _. repeat split.
        -- intros text He. discriminate He.
        -- intros name ->. discriminate Htext.
        -- intros e' [= <-]. reflexivity.
        -- intros o f -> Hf. cbn in Htext. rewrite Hf in Htext.
           injection Htext as <-. reflexivity.
  - eexists. split; [reflexivity|]. intros s Hs. discriminate.
Qed.
End Verification.

Lemma algorithm_gate_witness :
  verifyToken (H := SampleHost.host) SampleHost.offline
    Examples.token_HS256_subject SampleHost.no_options
  = IO [] (Return (failure "Unsupported algorithm: HS256, expected EdDSA")).
Proof.
  destruct (algorithm_gate (H := SampleHost.host) SampleHost.offline
              Examples.token_HS256_subject SampleHost.no_options
              (VObj (<["alg" := VStr "HS256"]> ∅))
              (VObj (<["sub" := VStr "5abc"]> ∅)) [x00] (VStr "HS256"))
    as (message & Hrun & Hmessage).
  - vm_compute. reflexivity.
  - reflexivity.
  - discriminate.
  - destruct (Hmessage "5abc") as (_ & Hname & _); [reflexivity|discriminate|].
    rewrite Hrun, (Hname "HS256"); reflexivity.
Defined.

(** An algorithm that has no text: the header is {"alg":{"toString":1}},
    and the message is the one of the error that the conversion throws. *)
Example algorithm_without_text :
  verifyToken (H := MoreExamples.host_alg_object) SampleHost.offline
    MoreExamples.token_alg_object SampleHost.no_options
  = IO [] (Return (failure "Cannot convert object to primitive value")).
Proof. vm_compute. reflexivity. Qed.

(** With EdDSA in the header the signature is checked: the call is in the
    trace, with the key that the subject decodes to. *)
Example signature_checked_for_EdDSA :
  verifyToken (H := SampleHost.host) SampleHost.offline
    Examples.token_EdDSA_alice SampleHost.no_options
  = IO [EvVerify [x00]
          (list_byte_of_string
             ("eyJhbGciOiJFZERTQSJ9"
              +:+ ".eyJzdWIiOiI1R3J3dmFFRjV6WGIyNkZ6OXJjUXBEV1M1N0N0RVJIcE5laFhDUGNOb0hHS3V0UVkifQ"))
          Examples.alice_key]
       (Return (failure "Invalid JWT signature")).
Proof. vm_compute. reflexivity. Qed.

(** A token that passes every step: the result is a success with the
    claims, after the signature check and a fetch that failed. *)
Example verification_succeeds :
  outcome (verifyToken (H := SampleHost.host) SampleHost.offline
             Examples.token_signed_alice SampleHost.no_options)
  = Return {| success := true; error := None;
              claims := Some (VObj (<["sub" := VStr Examples.alice]> ∅));
              didDocument := None |}
  /\ exists signature message url warning,
      trace (verifyToken (H := SampleHost.host) SampleHost.offline
               Examples.token_signed_alice SampleHost.no_options)
      = [EvVerify signature message Examples.alice_key; EvFetch url; EvWarn warning].
Proof.
  split; [vm_compute; reflexivity|].
  do 4 eexists. vm_compute. reflexivity.
Qed.

(** C5 as stated fails: the header of this token names HS256, and the
    message of the failure is about the subject, not about the algorithm. *)
Lemma algorithm_not_named_counterexample :
  splitJWT (H := SampleHost.host) Examples.token_HS256_no_subject
    = Return (VObj (<["alg" := VStr "HS256"]> ∅), VObj ∅, [x00])
  /\ verifyToken (H := SampleHost.host) SampleHost.offline
       Examples.token_HS256_no_subject SampleHost.no_options
     = IO [] (Return (failure "JWT payload has no valid subject")).
Proof. split; vm_compute; reflexivity. Qed.

(** ** Issuing *)

Section Issuing.
Context `{Host}.

Lemma privateKeyBytes_of_key_bytes privateKey bytes :
  key_bytes privateKey bytes -> privateKeyBytes_of privateKey = Return bytes.
Proof.
  destruct privateKey as [s|given]; simpl.
  - intros [Hhex|[[e Hhex] Hb64]].
    + rewrite Hhex. reflexivity.
    + rewrite Hhex, Hb64. reflexivity.
  - intros ->. reflexivity.
Qed.

(** [generateToken] once the key is read. *)
Lemma generateToken_bytes w options bytes :
  privateKeyBytes_of (privateKey options) = Return bytes ->
  generateToken w options =
    if (List.length bytes =? 32)%nat then
      Return (signToken
                (payload_of (Date_now w / 1000)
                   (default 2592000%Z (expiresIn options))
                   (default "sensespace" (issuer options))
                   (subject options)
                   (generateSS58Address (ed25519_getPublicKey bytes) None)
                   (default ∅ (additionalClaims options)))
                bytes)
    else Throw (invalid_key_length (List.length bytes)).
Proof.
  intros Hbytes. unfold generateToken. rewrite Hbytes. cbn [mbind result_bind].
  destruct (List.length bytes =? 32)%nat; reflexivity.
Qed.

(** The entries of the payload: those of [additionalClaims] first, then the
    five fixed ones. *)
Lemma payload_of_lookup now expiresIn issuer subject ss58Address extra key :
  payload_of now expiresIn issuer subject ss58Address extra !! key =
    match extra !! key with
    | Some v => Some v
    | None =>
        if decide (key = "iat") then Some (VNum now)
        else if decide (key = "exp") then Some (VNum (now + expiresIn))
        else if decide (key = "nbf") then Some (VNum now)
        else if decide (key = "iss") then Some (VStr issuer)
        else if decide (key = "sub") then
          Some (VStr (match subject with
                      | Some s => if String.eqb s "" then ss58Address else s
                      | None => ss58Address
                      end))
        else None
    end.
Proof.
  unfold payload_of. rewrite lookup_union.
  destruct (extra !! key) as [v|].
  - apply union_Some_l.
  - rewrite (left_id None _).
    repeat (rewrite lookup_insert; case_decide; subst;
            [repeat (case_decide; try congruence)|]).
    + f_equal. f_equal. destruct subject as [s|]; [|reflexivity].
      simpl. destruct (String.eqb s ""); reflexivity.
    + rewrite lookup_empty. repeat (case_decide; try congruence).
Qed.

(** The length check, on every host: whatever bytes the key is read as
    (the bytes given, those of the string read as hex, or, on a host where
    reading it as hex throws, as base64), [generateToken] throws the
    key-length error exactly when they are not 32, and returns a token when
    they are. *)
Lemma generateToken_key_length (w : world) (options : GenerateTokenOptions)
    (bytes : list byte) :
  key_bytes (privateKey options) bytes ->
  (generateToken w options = Throw (invalid_key_length (List.length bytes))
     <-> List.length bytes <> 32)
  /\ (List.length bytes = 32 -> exists token, generateToken w options = Return token).
Proof.
  intros Hkey. apply privateKeyBytes_of_key_bytes in Hkey.
  rewrite (generateToken_bytes _ _ _ Hkey).
  destruct (Nat.eqb_spec (List.length bytes) 32) as [Hlen|Hlen].
  - split; [split; [discriminate|contradiction]|]. eauto.
  - split; [tauto|contradiction].
Qed.

(** A string that is neither hex nor base64 for the host is refused with
    an error of its own. *)
Lemma generateToken_unreadable_key w options s e e' :
  privateKey options = inl s ->
  Buffer_from s hex = Throw e -> Buffer_from s base64 = Throw e' ->
  generateToken w options
  = Throw (Error "Private key string must be valid hex or base64").
Proof.
  intros Hs Hhex Hb64. unfold generateToken, privateKeyBytes_of.
  rewrite Hs, Hhex, Hb64. reflexivity.
Qed.

(** Where reading a string as hex does not throw, nothing else is tried:
    the key is the string read as hex, whatever it is in base64. *)
Lemma string_key_read_as_hex s bytes :
  Buffer_from s hex = Return bytes ->
  privateKeyBytes_of (inl s) = Return bytes.
Proof. intros Hhex. simpl. rewrite Hhex. reflexivity. Qed.
End Issuing.



(** C8. A key of 32 bytes written in Base64 is refused. The string is read
    as hex first, and on a host that reads hex as Node.js does, stopping at
    the first character that is not a hex digit and never throwing, the
    base64 reading is not reached: the 44 characters that are 32 zero bytes
    in Base64 are read as the 21 bytes of their first 42 characters, and
    [generateToken] throws the key-length error for 21 bytes. The same key
    given as bytes is accepted. *)
Theorem base64_key_refused :
  Buffer_from (Host := SampleHost.host) Examples.key_00_base64 base64
  = Return (repeat x00 32)
  /\ Buffer_from (Host := SampleHost.host) Examples.key_00_base64 hex
     = Return (repeat xaa 21)
  /\ generateToken (H := SampleHost.host) SampleHost.offline
       (Examples.options_of (inl Examples.key_00_base64) None None)
     = Throw (invalid_key_length 21)
  /\ invalid_key_length 21 = Error "Ed25519 private key must be 32 bytes, got 21"
  /\ exists token,
       generateToken (H := SampleHost.host) SampleHost.offline
         (Examples.options_of (inr (repeat x00 32)) None None) = Return token.
Proof.
  split; [vm_compute; reflexivity|].
  split; [vm_compute; reflexivity|].
  split; [vm_compute; reflexivity|].
  split; [vm_compute; reflexivity|].
  eexists. vm_compute. reflexivity.
Qed.

(** * Further properties of the code *)

(** ** Splitting a token *)

Lemma split_length sep s : List.length (split sep s) = S (count_char sep s).
Proof.
  induction s as [|c s IH]; [reflexivity|].
  cbn [split count_char]. destruct (Ascii.eqb c sep).
  - cbn [List.length]. rewrite IH. reflexivity.
  - destruct (split sep s) as [|part parts]; [discriminate|].
    cbn [List.length] in *. lia.
Qed.

Lemma split_parts sep s : Forall (fun part => count_char sep part = 0) (split sep s).
Proof.
  induction s as [|c s IH]; [repeat constructor|].
  pose proof (split_length sep s) as Hlen.
  cbn [split]. destruct (Ascii.eqb c sep) eqn:Hc.
  - constructor; [reflexivity|exact IH].
  - destruct (split sep s) as [|part parts]; [discriminate|].
    inversion IH as [|? ? Hpart Hparts]; subst.
    constructor; [|assumption]. cbn [count_char]. rewrite Hc, Hpart. reflexivity.
Qed.

Lemma concat_cons sep x y l :
  String.concat sep (x :: y :: l) = x +:+ sep +:+ String.concat sep (y :: l).
Proof. reflexivity. Qed.

Lemma split_concat sep s : String.concat (String sep "") (split sep s) = s.
Proof.
  induction s as [|c s IH]; [reflexivity|].
  pose proof (split_length sep s) as Hlen.
  cbn [split]. destruct (Ascii.eqb_spec c sep) as [->|Hc].
  - destruct (split sep s) as [|part parts]; [discriminate|].
    rewrite concat_cons, IH. reflexivity.
  - destruct (split sep s) as [|part parts]; [discriminate|].
    destruct parts as [|part' parts].
    + cbn [String.concat] in *. rewrite IH. reflexivity.
    + rewrite concat_cons. rewrite concat_cons in IH.
      change (String c (part +:+ String sep "" +:+
                        String.concat (String sep "") (part' :: parts)) = String c s).
      rewrite IH. reflexivity.
Qed.

Lemma split_three token :
  count_char "." token = 2 ->
  exists h p s, split "." token = [h; p; s]
                /\ token = h +:+ "." +:+ p +:+ "." +:+ s
                /\ count_char "." h = 0 /\ count_char "." p = 0
                /\ count_char "." s = 0.
Proof.
  intros Hcount.
  pose proof (split_length "." token) as Hlen. rewrite Hcount in Hlen.
  pose proof (split_parts "." token) as Hparts.
  pose proof (split_concat "." token) as Hjoin.
  destruct (split "." token) as [|h [|p [|s [|]]]]; try discriminate.
  exists h, p, s. split; [reflexivity|].
  inversion Hparts as [|? ? Hh Hps]; subst.
  inversion Hps as [|? ? Hp Hss]; subst.
  inversion Hss as [|? ? Hs _]; subst.
  repeat split; assumption.
Qed.

Lemma split_not_three token :
  count_char "." token <> 2 ->
  forall h p s, split "." token <> [h; p; s].
Proof.
  intros Hcount h p s Hsplit.
  pose proof (split_length "." token) as Hlen. rewrite Hsplit in Hlen.
  cbn in Hlen. lia.
Qed.

Section Splitting.
Context `{Host}.

(** X1. A token is split only when it has exactly two dots: any other
    token is refused with 'Invalid JWT format'; one with two dots is the
    three dot-free segments joined by dots, and the outcome is that of
    decoding and parsing these three in order. *)
Theorem splitJWT_format (token : string) :
  (count_char "." token <> 2 -> splitJWT token = Throw (Error "Invalid JWT format"))
  /\ (count_char "." token = 2 ->
      exists h p s,
        token = h +:+ "." +:+ p +:+ "." +:+ s
        /\ count_char "." h = 0 /\ count_char "." p = 0 /\ count_char "." s = 0
        /\ splitJWT token =
             (hb ← b64urlDecode h;
              header ← JSON_parse (Buffer_toString hb);
              pb ← b64urlDecode p;
              payload ← JSON_parse (Buffer_toString pb);
              signature ← b64urlDecode s;
              Return (header, payload, signature))).
Proof.
  split.
  - intros Hcount. unfold splitJWT.
    pose proof (split_not_three token Hcount) as Hnot.
    destruct (split "." token) as [|h [|p [|s [|]]]]; try reflexivity.
    exfalso. exact (Hnot h p s eq_refl).
  - intros Hcount.
    destruct (split_three token Hcount) as (h & p & s & Hsplit & Htoken & Hh & Hp & Hs).
    exists h, p, s. repeat (split; [assumption|]).
    unfold splitJWT. rewrite Hsplit. reflexivity.
Qed.

Lemma length_append s1 s2 :
  String.length (s1 +:+ s2) = String.length s1 + String.length s2.
Proof.
  induction s1 as [|c s1 IH]; [reflexivity|].
  change (S (String.length (s1 +:+ s2)) = S (String.length s1 + String.length s2)).
  rewrite IH. reflexivity.
Qed.

Lemma repeat_string_length s n :
  String.length (repeat_string s n) = n * String.length s.
Proof.
  induction n as [|n IH]; [reflexivity|].
  cbn [repeat_string]. rewrite length_append, IH. lia.
Qed.

Lemma append_empty_r s : s +:+ "" = s.
Proof.
  induction s as [|c s IH]; [reflexivity|].
  change (String c (s +:+ "") = String c s). rewrite IH. reflexivity.
Qed.

(** X2. [b64urlDecode] hands the decoder its input followed by at most
    three '=', as many as bring the length to a multiple of four, and none
    when it is one already. *)
Theorem b64urlDecode_padding (data : string) :
  exists k,
    k = (4 - String.length data mod 4) mod 4
    /\ k < 4
    /\ (String.length data + k) mod 4 = 0
    /\ String.length (data +:+ repeat_string "=" k) = String.length data + k
    /\ b64urlDecode data = Buffer_from (data +:+ repeat_string "=" k) base64url.
Proof.
  exists ((4 - String.length data mod 4) mod 4).
  pose proof (Nat.mod_upper_bound (String.length data) 4 ltac:(lia)) as Hmod.
  split; [reflexivity|]. split; [apply Nat.mod_upper_bound; lia|]. split.
  - rewrite Nat.Div0.add_mod, Nat.Div0.mod_mod.
    destruct (String.length data mod 4) as [|[|[|[|r]]]]; try reflexivity. lia.
  - split.
    + rewrite length_append, repeat_string_length. cbn. lia.
    + unfold b64urlDecode.
      destruct (Nat.eqb_spec (4 - String.length data mod 4) 4) as [E|E].
      * rewrite E. cbn. rewrite append_empty_r. reflexivity.
      * rewrite (Nat.mod_small (4 - String.length data mod 4) 4) by lia.
        reflexivity.
Qed.
End Splitting.

(** ** The verdict on the time claims *)

Section TimeVerdicts.
#[local] Open Scope Z_scope.

Ltac comparisons :=
  repeat match goal with
  | H : (_ =? _) = false |- _ => apply Z.eqb_neq in H
  | H : (_ =? _) = true |- _ => apply Z.eqb_eq in H
  | H : (_ >=? _) = true |- _ => apply Z.geb_le in H
  | H : (_ >=? _) = false |- _ => rewrite Z.geb_leb in H; apply Z.leb_gt in H
  | H : (_ <? _) = true |- _ => apply Z.ltb_lt in H
  | H : (_ <? _) = false |- _ => apply Z.ltb_ge in H
  | H : (_ >? _) = true |- _ => rewrite Z.gtb_ltb in H; apply Z.ltb_lt in H
  | H : (_ >? _) = false |- _ => rewrite Z.gtb_ltb in H; apply Z.ltb_ge in H
  end.

Ltac verdicts :=
  unfold throw_if, passes;
  repeat (cbn [mbind result_bind];
          match goal with
          | |- context [match ?v with VNum _ => _ | _ => _ end] => destruct v
          | |- context [match ?o with Some _ => _ | None => _ end] => destruct o
          | |- context [if ?b then _ else _] => destruct b eqn:?
          end);
  cbn [mbind result_bind]; comparisons.

Ltac normal_form Hexp Hnbf Hiat :=
  rewrite (validateTokenTimes_claims _ _ _ _ _ _ Hexp Hnbf Hiat); cbn zeta.

(** X3. When are the time claims accepted: when [exp] is not a number other
    than zero or lies ahead of the clock, [nbf] is not a number other than
    zero or has been reached, and no [maxAge] other than zero is given or
    [iat] is not a number other than zero or is at most [maxAge] back. *)
Theorem validateTokenTimes_accepts_iff w payload maxAge exp nbf iat :
  get_prop payload "exp" = Return exp ->
  get_prop payload "nbf" = Return nbf ->
  get_prop payload "iat" = Return iat ->
  let now := Date_now w / 1000 in
  validateTokenTimes w payload maxAge = Return tt
  <-> passes exp (fun e => now < e)
      /\ passes nbf (fun n => n <= now)
      /\ match maxAge with
         | Some age => age = 0 \/ passes iat (fun i => now <= i + age)
         | None => True
         end.
Proof.
  intros Hexp Hnbf Hiat now. subst now. normal_form Hexp Hnbf Hiat.
  verdicts; split; try discriminate; try tauto; try (intros _; intuition lia);
    intros (He & Hn & Ha); exfalso; intuition lia.
Qed.

(** X4. The checks are made in the order [exp], [nbf], [iat], and the
    first that fails gives the error: 'Token not yet valid' is thrown
    exactly when the expiry check passes and [nbf] is a number other than
    zero ahead of the clock; 'Token too old' exactly when both pass, a
    [maxAge] other than zero is given and [iat] is a number other than zero
    more than [maxAge] back. *)
Theorem validateTokenTimes_first_failure w payload maxAge exp nbf iat :
  get_prop payload "exp" = Return exp ->
  get_prop payload "nbf" = Return nbf ->
  get_prop payload "iat" = Return iat ->
  let now := Date_now w / 1000 in
  (validateTokenTimes w payload maxAge = Throw (Error "Token not yet valid")
   <-> passes exp (fun e => now < e)
       /\ exists n, nbf = VNum n /\ n <> 0 /\ now < n)
  /\ (validateTokenTimes w payload maxAge = Throw (Error "Token too old")
      <-> passes exp (fun e => now < e)
          /\ passes nbf (fun n => n <= now)
          /\ exists age i, maxAge = Some age /\ age <> 0
                           /\ iat = VNum i /\ i <> 0 /\ i + age < now).
Proof.
  intros Hexp Hnbf Hiat now. subst now. normal_form Hexp Hnbf Hiat.
  split.
  - verdicts; split; try discriminate;
      try (intros _; split; [first [exact I|lia]|]; eexists; split; [reflexivity|]; lia);
      intros (He & ? & Hn & Hnz & Hlt); try discriminate;
      try (injection Hn as <-); try reflexivity; exfalso; intuition lia.
  - verdicts; split; try discriminate;
      try (intros _; split; [first [exact I|lia]|]; split; [first [exact I|lia]|];
           do 2 eexists; split; [reflexivity|]; split; [lia|];
           split; [reflexivity|]; lia);
      intros (He & Hn & ? & ? & Ha & Hanz & Hi & Hinz & Hlt); try discriminate;
      try (injection Ha as <-); try (injection Hi as <-); try reflexivity;
      exfalso; intuition lia.
Qed.

(** X5. Claims without numbers under [exp], [nbf] and [iat] (the keys
    missing, or holding strings or anything else) are accepted at any time
    and with any [maxAge]. *)
Theorem validateTokenTimes_skips_non_numbers w (o : gmap string value) maxAge :
  (forall key n, key ∈ ["exp"; "nbf"; "iat"] -> o !! key <> Some (VNum n)) ->
  validateTokenTimes w (VObj o) maxAge = Return tt.
Proof.
  intros Hnone.
  assert (Hpass : forall key, key ∈ ["exp"; "nbf"; "iat"] ->
            forall n, default VUndefined (o !! key) <> VNum n).
  { intros key Hkey n. specialize (Hnone key n Hkey).
    destruct (o !! key) as [v|]; [|discriminate].
    intros Hv. apply Hnone. f_equal. exact Hv. }
  pose proof (Hpass "exp" ltac:(set_solver)) as Hexp.
  pose proof (Hpass "nbf" ltac:(set_solver)) as Hnbf.
  pose proof (Hpass "iat" ltac:(set_solver)) as Hiat.
  rewrite (validateTokenTimes_claims w (VObj o) maxAge _ _ _ eq_refl eq_refl eq_refl).
  cbn zeta.
  destruct (default VUndefined (o !! "exp")) as [| | |e| | |];
    try (exfalso; exact (Hexp e eq_refl)).
  all: destruct (default VUndefined (o !! "nbf")) as [| | |n| | |];
    try (exfalso; exact (Hnbf n eq_refl)).
  all: destruct (default VUndefined (o !! "iat")) as [| | |i| | |];
    try (exfalso; exact (Hiat i eq_refl)).
  all: destruct maxAge as [age|]; [destruct (age =? 0)|]; reflexivity.
Qed.
End TimeVerdicts.

(** ** Running [verifyToken] step by step *)

Section Running.
Context `{Host}.

Lemma io_eta {A : Type} (m : io A) : IO (trace m) (outcome m) = m.
Proof. destruct m; reflexivity. Qed.

Lemma bind_lift_Return {A B : Type} (a : A) (k : A -> io B) :
  lift (Return a) ≫= k = k a.
Proof. unfold mbind, io_bind, lift. cbn. apply io_eta. Qed.

Lemma bind_lift_Throw {A B : Type} (e : thrown) (k : A -> io B) :
  lift (Throw e) ≫= k = IO [] (Throw e).
Proof. reflexivity. Qed.

Lemma bind_emit_Return {A B : Type} ev (a : A) (k : A -> io B) :
  emit ev (Return a) ≫= k = IO (ev :: trace (k a)) (outcome (k a)).
Proof. reflexivity. Qed.

Lemma bind_emit_Throw {A B : Type} ev (e : thrown) (k : A -> io B) :
  emit ev (Throw e) ≫= k = IO [ev] (Throw e).
Proof. reflexivity. Qed.

Lemma bind_Return_mret {A B : Type} (m : io A) (a : A) (f : A -> B) :
  outcome m = Return a ->
  m ≫= (fun x => mret (f x)) = IO (trace m) (Return (f a)).
Proof.
  intros Hm. unfold mbind, io_bind. rewrite Hm. cbn. rewrite app_nil_r. reflexivity.
Qed.

Lemma caught {A : Type} (tr : list event) (e : thrown)
    (handler : thrown -> io A) :
  try_catch (IO tr (Throw e)) handler
  = IO (tr ++ trace (handler e)) (outcome (handler e)).
Proof. reflexivity. Qed.

Lemma not_caught {A : Type} (tr : list event) (a : A) (handler : thrown -> io A) :
  try_catch (IO tr (Return a)) handler = IO tr (Return a).
Proof. reflexivity. Qed.

(** The optional fetch never throws; it makes at most one request and
    writes a warning only after a request. *)
Lemma fetchDidDocument_runs w didBaseUrl sub :
  exists document,
    outcome (fetchDidDocument w didBaseUrl sub) = Return document
    /\ (trace (fetchDidDocument w didBaseUrl sub) = []
        \/ trace (fetchDidDocument w didBaseUrl sub) = [EvFetch (didBaseUrl +:+ sub)]
        \/ exists warning,
             trace (fetchDidDocument w didBaseUrl sub)
             = [EvFetch (didBaseUrl +:+ sub); EvWarn warning]).
Proof.
  unfold fetchDidDocument.
  destruct (truthy (VStr didBaseUrl) && String.prefix "5" sub); [|cbn; eauto 10].
  destruct (fetch w (didBaseUrl +:+ sub)) as [response|e] eqn:Hfetch.
  - rewrite bind_emit_Return.
    destruct (ok response).
    + destruct (json response) as [document|e] eqn:Hjson.
      * rewrite bind_lift_Return. cbn. eauto 10.
      * rewrite bind_lift_Throw. cbn. eauto 10.
    + cbn. eauto 10.
  - rewrite bind_emit_Throw. cbn. eauto 10.
Qed.
End Running.

(** ** Issue, then verify *)

Lemma split_no_sep sep s : count_char sep s = 0 -> split sep s = [s].
Proof.
  induction s as [|c s IH]; [reflexivity|].
  cbn [count_char split]. destruct (Ascii.eqb c sep); [discriminate|].
  intros Hs. rewrite (IH Hs). reflexivity.
Qed.

Lemma split_app_sep sep s rest :
  count_char sep s = 0 ->
  split sep (s +:+ String sep rest) = s :: split sep rest.
Proof.
  induction s as [|c s IH].
  - intros _. change ("" +:+ String sep rest) with (String sep rest).
    cbn [split]. rewrite Ascii.eqb_refl. reflexivity.
  - cbn [count_char]. destruct (Ascii.eqb c sep) eqn:Hc; [discriminate|].
    intros Hs. change (String c s +:+ String sep rest)
      with (String c (s +:+ String sep rest)).
    cbn [split]. rewrite Hc, (IH Hs). reflexivity.
Qed.

Lemma split_joined a b c :
  count_char "." a = 0 -> count_char "." b = 0 -> count_char "." c = 0 ->
  split "." (a +:+ "." +:+ b +:+ "." +:+ c) = [a; b; c].
Proof.
  intros Ha Hb Hc.
  change (a +:+ "." +:+ b +:+ "." +:+ c) with (a +:+ String "." (b +:+ String "." c)).
  rewrite (split_app_sep "." a _ Ha), (split_app_sep "." b _ Hb), (split_no_sep "." c Hc).
  reflexivity.
Qed.

Lemma append_assoc a b c : (a +:+ b) +:+ c = a +:+ (b +:+ c).
Proof.
  induction a as [|x a IH]; [reflexivity|].
  change (String x ((a +:+ b) +:+ c) = String x (a +:+ (b +:+ c))).
  rewrite IH. reflexivity.
Qed.

Section RoundTrip.
Context `{Host}.

Lemma address_not_empty (publicKey : list byte) (prefix : option Z) :
  generateSS58Address publicKey prefix <> "".
Proof.
  intros Hempty.
  pose proof (generateSS58Address_decode publicKey prefix) as Hraw.
  rewrite Hempty in Hraw. discriminate.
Qed.

Lemma carried (v : value) :
  carries_value v ->
  exists bytes,
    b64urlDecode (b64urlEncode (Buffer_from_utf8 (JSON_stringify v))) = Return bytes
    /\ JSON_parse (Buffer_toString bytes) = Return v.
Proof.
  unfold carries_value.
  destruct (b64urlDecode _) as [bytes|e]; [|discriminate].
  cbn [mbind result_bind]. eauto.
Qed.

(** The time claims of a fresh token are accepted from the second it was
    issued until the second before it expires, and while it is not older
    than [maxAge]. *)
Lemma fresh_claims_accepted w' (payload : gmap string value) maxAge (now expiresIn : Z) :
  payload !! "exp" = Some (VNum (now + expiresIn)) ->
  payload !! "nbf" = Some (VNum now) ->
  payload !! "iat" = Some (VNum now) ->
  (now <= Date_now w' / 1000 < now + expiresIn)%Z ->
  (forall age, maxAge = Some age -> (Date_now w' / 1000 <= now + age)%Z) ->
  validateTokenTimes w' (VObj payload) maxAge = Return tt.
Proof.
  intros Hexp Hnbf Hiat Hnow Hage.
  rewrite (validateTokenTimes_claims w' (VObj payload) maxAge
             (VNum (now + expiresIn)) (VNum now) (VNum now)).
  - cbn zeta. unfold throw_if.
    destruct (Z.eqb_spec (now + expiresIn) 0); cbn [mbind result_bind];
      [|destruct (Z.geb_spec (Date_now w' / 1000) (now + expiresIn)); [lia|];
        cbn [mbind result_bind]].
    all: destruct (Z.eqb_spec now 0); cbn [mbind result_bind];
      [|destruct (Z.ltb_spec (Date_now w' / 1000) now); [lia|];
        cbn [mbind result_bind]].
    all: destruct maxAge as [age|]; [|reflexivity].
    all: destruct (Z.eqb_spec age 0); [reflexivity|].
    all: try reflexivity.
    all: specialize (Hage age eq_refl).
    all: destruct (Z.gtb_spec (Date_now w' / 1000) (now + age)); [lia|reflexivity].
  - cbn. rewrite Hexp. reflexivity.
  - cbn. rewrite Hnbf. reflexivity.
  - cbn. rewrite Hiat. reflexivity.
Qed.
End RoundTrip.

(** ** What [verifyToken] guarantees *)

Section Guarantees.
Context `{Host}.

Ltac run_step :=
  lazymatch goal with
  | |- context [match ?p with pair _ _ => _ end] => destruct p
  | |- context [lift (throw_if ?c _) ≫= _] => destruct c eqn:?; cbn [throw_if]
  | |- context [lift (Return _) ≫= _] => rewrite !bind_lift_Return; cbn beta iota zeta
  | |- context [lift (Throw _) ≫= _] => rewrite !bind_lift_Throw
  | |- context [lift ?r ≫= _] => destruct r eqn:?
  | |- context [emit _ (Return _) ≫= _] => rewrite !bind_emit_Return
  | |- context [emit _ (Throw _) ≫= _] => rewrite !bind_emit_Throw
  | |- context [emit _ ?r ≫= _] => destruct r eqn:?
  end.

Ltac run := unfold verifyToken; repeat run_step; cbn [trace outcome].

Lemma splitJWT_malformed token :
  count_char "." token <> 2 -> splitJWT token = Throw (Error "Invalid JWT format").
Proof.
  intros Hcount. unfold splitJWT.
  pose proof (split_not_three token Hcount) as Hnot.
  destruct (split "." token) as [|h [|p [|s [|]]]]; try reflexivity.
  exfalso. exact (Hnot h p s eq_refl).
Qed.

Lemma splitJWT_Return_split token parsed :
  splitJWT token = Return parsed ->
  exists h p s, split "." token = [h; p; s] /\ token = h +:+ "." +:+ p +:+ "." +:+ s.
Proof.
  intros Hsplit.
  destruct (Nat.eq_dec (count_char "." token) 2) as [Hcount|Hcount].
  - destruct (split_three token Hcount) as (h & p & s & Hparts & Htoken & _).
    eauto.
  - rewrite (splitJWT_malformed token Hcount) in Hsplit. discriminate.
Qed.

Lemma subject_guard sub :
  negb (truthy sub) || negb (is_string sub) = false ->
  exists s, sub = VStr s /\ s <> "" /\ string_of sub = s.
Proof.
  destruct sub as [| |b|n|s|l|o]; cbn; try discriminate;
    try (destruct b; discriminate); try (destruct (n =? 0)%Z; discriminate).
  destruct (String.eqb_spec s "") as [->|Hs]; [discriminate|]. eauto.
Qed.

Lemma not_EdDSA_false alg : not_EdDSA alg = false -> alg = VStr "EdDSA".
Proof.
  destruct alg as [| | | |s| |]; cbn; try discriminate.
  destruct (String.eqb_spec s "EdDSA") as [->|]; [reflexivity|discriminate].
Qed.

(** The algorithm check lets only EdDSA through. *)
Lemma alg_checked alg u :
  (if not_EdDSA alg
   then throw_template "Unsupported algorithm: " alg ", expected EdDSA"
   else Return tt) = Return u ->
  alg = VStr "EdDSA".
Proof.
  destruct (not_EdDSA alg) eqn:Halg; [|intros _; apply not_EdDSA_false, Halg].
  unfold throw_template. destruct (ToString alg); discriminate.
Qed.

(** The issuer check as a proposition: with a non-empty allow-list, an
    issuer that is truthy is on the list. *)
Lemma issuer_checked (allowed : list string) payload u :
  (if (0 <? List.length allowed)%nat
   then iss ← get_prop payload "iss";
        if truthy iss
        then if negb (includes allowed iss)
             then throw_template "Invalid issuer: " iss ""
             else Return tt
        else Return tt
   else Return tt) = Return u ->
  forall iss, get_prop payload "iss" = Return iss -> truthy iss = true ->
              allowed <> [] -> includes allowed iss = true.
Proof.
  intros Hcheck iss Hiss Htruthy Hallowed.
  destruct allowed as [|i allowed]; [contradiction|].
  cbn [List.length Nat.ltb Nat.leb] in Hcheck.
  rewrite Hiss in Hcheck. cbn [mbind result_bind] in Hcheck.
  rewrite Htruthy in Hcheck.
  destruct (includes (i :: allowed) iss); [reflexivity|].
  cbn [negb] in Hcheck. unfold throw_template in Hcheck.
  destruct (ToString iss); discriminate Hcheck.
Qed.

Lemma issuer_passes (allowed : list string) payload :
  (exists iss, get_prop payload "iss" = Return iss) ->
  (forall iss, get_prop payload "iss" = Return iss -> truthy iss = true ->
               allowed <> [] -> includes allowed iss = true) ->
  (if (0 <? List.length allowed)%nat
   then iss ← get_prop payload "iss";
        if truthy iss
        then if negb (includes allowed iss)
             then throw_template "Invalid issuer: " iss ""
             else Return tt
        else Return tt
   else Return tt) = Return tt.
Proof.
  intros [iss Hiss] Hcheck.
  destruct allowed as [|i allowed]; [reflexivity|].
  cbn [List.length Nat.ltb Nat.leb]. rewrite Hiss. cbn [mbind result_bind].
  destruct (truthy iss) eqn:Htruthy; [|reflexivity].
  rewrite (Hcheck iss Hiss Htruthy ltac:(discriminate)). reflexivity.
Qed.

Lemma count_char_append sep a b :
  count_char sep (a +:+ b) = count_char sep a + count_char sep b.
Proof.
  induction a as [|c a IH]; [reflexivity|].
  change (String c a +:+ b) with (String c (a +:+ b)).
  cbn [count_char]. rewrite IH. lia.
Qed.

(** The segments of a token that was split are its parts. *)
Lemma split_of_segments token parsed h p s :
  splitJWT token = Return parsed ->
  token = h +:+ "." +:+ p +:+ "." +:+ s ->
  split "." token = [h; p; s].
Proof.
  intros Hsplit Htoken.
  destruct (splitJWT_Return_split _ _ Hsplit) as (h' & p' & s' & Hparts & _).
  pose proof (split_length "." token) as Hlen. rewrite Hparts in Hlen.
  cbn [List.length] in Hlen.
  assert (Hcount : count_char "." h + count_char "." p + count_char "." s = 0).
  { rewrite Htoken in Hlen.
    change (h +:+ "." +:+ p +:+ "." +:+ s)
      with (h +:+ String "." (p +:+ String "." s)) in Hlen.
    rewrite count_char_append in Hlen. cbn [count_char] in Hlen.
    rewrite count_char_append in Hlen. cbn [count_char] in Hlen.
    cbn [Ascii.eqb Bool.eqb] in Hlen. lia. }
  rewrite Htoken. apply split_joined; lia.
Qed.

Lemma accepted_succeeds w token options payload :
  accepted w token options payload ->
  exists document,
    outcome (verifyToken w token options)
    = Return {| success := true; error := None;
                claims := Some payload; didDocument := document |}.
Proof.
  intros (header & signatureBytes & sub & publicKey & h & p & s & Htoken & Hsplit
          & Hsub & Hnonempty & Halg & Hissuer & Htimes & Hkey & Hverify).
  pose proof (split_of_segments _ _ _ _ _ Hsplit Htoken) as Hparts.
  unfold verifyToken. rewrite Hsplit, bind_lift_Return. cbn beta iota zeta.
  rewrite Hsub, bind_lift_Return. cbn [truthy is_string negb orb string_of].
  destruct (String.eqb_spec sub "") as [|_]; [contradiction|].
  cbn [negb orb throw_if]. rewrite bind_lift_Return.
  rewrite Halg, bind_lift_Return.
  cbn [not_EdDSA String.eqb Ascii.eqb Bool.eqb negb throw_if].
  rewrite bind_lift_Return.
  rewrite (issuer_passes _ payload); [|destruct payload; cbn in *; eauto; discriminate|exact Hissuer].
  rewrite bind_lift_Return, Htimes, bind_lift_Return, Hkey, bind_lift_Return.
  rewrite Hparts. cbn [slice skipn firstn nth Nat.sub].
  rewrite Hverify, bind_emit_Return. cbn [negb throw_if].
  rewrite bind_lift_Return.
  match goal with
  | |- context [fetchDidDocument ?w ?url ?sub] =>
      destruct (fetchDidDocument_runs w url sub) as (document & Hdocument & _);
      rewrite (bind_Return_mret _ document _ Hdocument)
  end.
  exists document. reflexivity.
Qed.

(** X6. [verifyToken] answers with a success carrying some claims exactly
    when the token passes every step with these claims as its payload: it
    is three segments, header and payload are parsed from the first two, the
    subject is a non-empty string, the algorithm is EdDSA, a truthy issuer
    is on a non-empty allow-list, the time claims are accepted, the subject
    decodes to a key, and the signature library answers [true] for the
    third segment over the first two segments as they stand in the token,
    under that key. *)
Theorem verifyToken_success_iff (w : world) (token : string)
    (options : TokenVerifierOptions) (payload : value) :
  (exists r, outcome (verifyToken w token options) = Return r
             /\ success r = true /\ claims r = Some payload)
  <-> accepted w token options payload.
Proof.
  split.
  - intros (r & Hout & Hsuccess & Hclaims). revert Hout. run.
    all: try (cbn; intros [= <-]; discriminate Hsuccess).
    match goal with
    | |- context [fetchDidDocument ?w ?url ?sub] =>
        destruct (fetchDidDocument_runs w url sub) as (document & Hdocument & _);
        rewrite (bind_Return_mret _ document _ Hdocument)
    end.
    cbn. intros [= <-]. cbn in Hclaims. injection Hclaims as ->.
    repeat match goal with
    | u : unit |- _ => destruct u
    | Hvalid : negb ?b = false |- _ => destruct b; [clear Hvalid|discriminate Hvalid]
    | Hguard : negb (truthy _) || negb (is_string _) = false |- _ =>
        apply subject_guard in Hguard as (sub & -> & Hsub & _)
    | Halg : (if not_EdDSA _ then _ else _) = Return _ |- _ =>
        apply alg_checked in Halg as ->
    end.
    match goal with
    | Hsplit : splitJWT _ = Return _ |- _ =>
        destruct (splitJWT_Return_split _ _ Hsplit) as (h & p & s & Hparts & Htoken)
    end.
    match goal with
    | Hiss : _ = Return () |- _ => pose proof (issuer_checked _ _ _ Hiss)
    end.
    rewrite Hparts in *. cbn [slice skipn firstn nth Nat.sub string_of] in *.
    unfold accepted. do 7 eexists. split; [exact Htoken|].
    repeat (split; [eassumption || reflexivity|]). eassumption.
  - intros Haccepted.
    destruct (accepted_succeeds _ _ _ _ Haccepted) as (document & Hout).
    eexists. split; [exact Hout|]. split; reflexivity.
Qed.

(** X7. What leaves the process, and when: nothing at all unless every
    check before the signature has passed; then one call to the signature
    library; a request for the document only after that call answered
    [true], in which case the result is a success; and a warning only after
    a request that failed, the success then carrying no document. *)
Theorem verifyToken_trace (w : world) (token : string) (options : TokenVerifierOptions) :
  exists r,
    outcome (verifyToken w token options) = Return r
    /\ ((trace (verifyToken w token options) = [] /\ success r = false)
        \/ (exists signature message key,
              trace (verifyToken w token options) = [EvVerify signature message key])
        \/ (exists signature message key url,
              success r = true
              /\ (trace (verifyToken w token options)
                  = [EvVerify signature message key; EvFetch url]
                  \/ exists warning,
                       trace (verifyToken w token options)
                       = [EvVerify signature message key; EvFetch url; EvWarn warning]))).
Proof.
  run.
  all: try (cbn; eexists; split; [reflexivity|]; left; split; reflexivity).
  all: try (cbn; eexists; split; [reflexivity|]; right; left; eauto).
  match goal with
  | |- context [fetchDidDocument ?w ?url ?sub] =>
      destruct (fetchDidDocument_runs w url sub) as (document & Hdocument & Htrace);
      rewrite (bind_Return_mret _ document _ Hdocument)
  end.
  cbn. eexists. split; [reflexivity|].
  destruct Htrace as [->|[->|[warning ->]]].
  - right. left. eauto.
  - right. right. do 4 eexists. split; [reflexivity|]. left. reflexivity.
  - right. right. do 4 eexists. split; [reflexivity|]. right. eauto.
Qed.

Lemma validateTokenTimes_clock w1 w2 payload maxAge :
  Date_now w1 = Date_now w2 ->
  validateTokenTimes w1 payload maxAge = validateTokenTimes w2 payload maxAge.
Proof. intros Hnow. unfold validateTokenTimes. rewrite Hnow. reflexivity. Qed.

(** X8. The verdict does not depend on the network: in two worlds whose
    clocks agree, whatever [fetch] answers in each, [verifyToken] gives the
    same [success], the same [error] and the same [claims]. *)
Theorem verdict_ignores_network (w1 w2 : world) (token : string)
    (options : TokenVerifierOptions) (r1 r2 : VerifyTokenResult) :
  Date_now w1 = Date_now w2 ->
  outcome (verifyToken w1 token options) = Return r1 ->
  outcome (verifyToken w2 token options) = Return r2 ->
  success r1 = success r2 /\ error r1 = error r2 /\ claims r1 = claims r2.
Proof.
  intros Hnow. unfold verifyToken.
  assert (Htimes : forall payload,
            validateTokenTimes w1 payload (maxTokenAge options)
            = validateTokenTimes w2 payload (maxTokenAge options))
    by (intros; apply validateTokenTimes_clock; assumption).
  repeat first [rewrite Htimes | run_step]. cbn [trace outcome].
  all: try (cbn; intros [= <-] [= <-]; repeat split; reflexivity).
  repeat match goal with
  | |- context [fetchDidDocument ?w ?url ?sub ≫= _] =>
      let document := fresh "document" in
      let Hdocument := fresh "Hdocument" in
      destruct (fetchDidDocument_runs w url sub) as (document & Hdocument & _);
      rewrite (bind_Return_mret _ document _ Hdocument)
  end.
  cbn. intros [= <-] [= <-]. repeat split; reflexivity.
Qed.

(** X9. The issuer check: when the subject is a non-empty string and the
    algorithm is EdDSA, a token whose [iss] is truthy and not on a non-empty
    allow-list (by default the list is 'sensespace' alone) is refused
    before the time claims are looked at and with nothing leaving the
    process. The message is 'Invalid issuer: ' followed by the text of
    [iss] when [iss] converts to text, as every string does; when the
    conversion throws, as for an object with a key [toString], the message
    is the one of that error. *)
Theorem issuer_rejected (w : world) (token : string) (options : TokenVerifierOptions)
    (header payload : value) (signatureBytes : list byte) (sub : string) (iss : value) :
  splitJWT token = Return (header, payload, signatureBytes) ->
  get_prop payload "sub" = Return (VStr sub) -> sub <> "" ->
  get_prop header "alg" = Return (VStr "EdDSA") ->
  get_prop payload "iss" = Return iss -> truthy iss = true ->
  default ["sensespace"] (allowedIssuers options) <> [] ->
  includes (default ["sensespace"] (allowedIssuers options)) iss = false ->
  exists message,
    verifyToken w token options = IO [] (Return (failure message))
    /\ (forall text, ToString iss = Return text ->
          message = "Invalid issuer: " +:+ text)
    /\ (forall name, iss = VStr name -> message = "Invalid issuer: " +:+ name)
    /\ (forall e, ToString iss = Throw e ->
          message = match e with Error m => m | NonError text => text end)
    /\ (forall o f, iss = VObj o -> o !! "toString" = Some f ->
          message = "Cannot convert object to primitive value").
Proof.
  intros Hsplit Hsub Hnonempty Halg Hiss Htruthy Hallowed Hincludes.
  unfold verifyToken. rewrite Hsplit, bind_lift_Return. cbn beta iota zeta.
  rewrite Hsub, bind_lift_Return. cbn [truthy is_string negb orb].
  destruct (String.eqb_spec sub "") as [|_]; [contradiction|].
  cbn [negb orb throw_if]. rewrite bind_lift_Return.
  rewrite Halg, bind_lift_Return. cbn [not_EdDSA String.eqb Ascii.eqb Bool.eqb negb throw_if].
  rewrite bind_lift_Return.
  destruct (default ["sensespace"] (allowedIssuers options)) as [|i allowed] eqn:Hlist;
    [contradiction|].
  cbn [List.length Nat.ltb Nat.leb]. rewrite Hiss. cbn [mbind result_bind].
  rewrite Htruthy, Hincludes. cbn [negb]. unfold throw_template.
  destruct (ToString iss) as [text|e] eqn:Htext.
  - cbn [mbind result_bind]. rewrite bind_lift_Throw, append_empty_r.
    eexists. split; [reflexivity|]. repeat split.
    + intros text' [= <-]. reflexivity.
    + intros name ->. cbn in Htext. injection Htext as <-. reflexivity.
    + intros e He. discriminate He.
    + intros o f -> Hf. cbn in Htext. rewrite Hf in Htext. discriminate Htext.
  - cbn [mbind result_bind]. rewrite bind_lift_Throw.
    eexists. split; [reflexivity|]. repeat split.
    + intros text He. discriminate He.
    + intros name ->. discriminate Htext.
    + intros e' [= <-]. reflexivity.
    + intros o f -> Hf. cbn in Htext. rewrite Hf in Htext.
      injection Htext as <-. reflexivity.
Qed.

(** X10. A token that does not have exactly two dots is refused with
    'Invalid JWT format', with nothing decoded by the signature library
    and nothing fetched. *)
Theorem verifyToken_malformed (w : world) (token : string)
    (options : TokenVerifierOptions) :
  count_char "." token <> 2 ->
  verifyToken w token options = IO [] (Return (failure "Invalid JWT format")).
Proof.
  intros Hcount. unfold verifyToken.
  rewrite (splitJWT_malformed token Hcount), bind_lift_Throw. reflexivity.
Qed.
(** X11. The class and the function agree on the defaults: a verifier
    constructed with some options verifies as [verifyToken] does with these
    options, whether a key is given, given as [undefined], or left out. *)
Theorem verifier_verifies_as_verifyToken (options : OptionsObject) (w : world)
    (token : string) :
  SenseSpaceTokenVerifier.verify (SenseSpaceTokenVerifier.constructor options) w token
  = verifyToken w token (read_options options).
Proof.
  destruct options as [[[url|]|] [[issuers|]|] [[age|]|]]; reflexivity.
Qed.

(** X12. After an update the verifier verifies as [verifyToken] does with
    the options of the update spread over those of the construction: a key
    the update names has the update's value, [undefined] standing for the
    default again, and any other key keeps what the construction gave. *)
Theorem verifier_after_update (options newOptions : OptionsObject) (w : world)
    (token : string) :
  SenseSpaceTokenVerifier.verify
    (SenseSpaceTokenVerifier.updateOptions
       (SenseSpaceTokenVerifier.constructor options) newOptions) w token
  = verifyToken w token (read_options (spread options newOptions)).
Proof.
  destruct options as [[[url|]|] [[issuers|]|] [[age|]|]];
    destruct newOptions as [[[url'|]|] [[issuers'|]|] [[age'|]|]]; reflexivity.
Qed.

(** X13. [extractClaims] gives [null] for a token without exactly two
    dots, and for a token that [verify] accepts it gives the very claims
    that [verify] returns. *)
Theorem extractClaims_agrees (this : OptionsObject) (w : world) (token : string) :
  (count_char "." token <> 2 ->
   SenseSpaceTokenVerifier.extractClaims this token = VNull)
  /\ (forall r,
        outcome (SenseSpaceTokenVerifier.verify this w token) = Return r ->
        success r = true ->
        claims r = Some (SenseSpaceTokenVerifier.extractClaims this token)).
Proof.
  split.
  - intros Hcount. unfold SenseSpaceTokenVerifier.extractClaims.
    rewrite (splitJWT_malformed token Hcount). reflexivity.
  - intros r Hout Hsuccess. revert Hout.
    unfold SenseSpaceTokenVerifier.verify, SenseSpaceTokenVerifier.extractClaims.
    run.
    all: try (cbn; intros [= <-]; discriminate Hsuccess).
    match goal with
    | |- context [fetchDidDocument ?w ?url ?sub] =>
        destruct (fetchDidDocument_runs w url sub) as (document & Hdocument & _);
        rewrite (bind_Return_mret _ document _ Hdocument)
    end.
    cbn. intros [= <-]. reflexivity.
Qed.
Lemma fetchDidDocument_target w didBaseUrl sub url :
  EvFetch url ∈ trace (fetchDidDocument w didBaseUrl sub) ->
  url = didBaseUrl +:+ sub /\ didBaseUrl <> "" /\ String.prefix "5" sub = true.
Proof.
  unfold fetchDidDocument.
  destruct (truthy (VStr didBaseUrl) && String.prefix "5" sub) eqn:Hguard.
  - apply andb_true_iff in Hguard as (Hbase & Hprefix). cbn in Hbase.
    intros Hin.
    assert (Hbase' : didBaseUrl <> "")
      by (destruct (String.eqb_spec didBaseUrl ""); [discriminate|assumption]).
    destruct (fetchDidDocument_runs w didBaseUrl sub) as (_ & _ & Htrace).
    unfold fetchDidDocument in Htrace. cbn [truthy] in Htrace.
    destruct (String.eqb_spec didBaseUrl ""); [contradiction|].
    cbn [negb andb] in Htrace. rewrite Hprefix in Htrace.
    destruct Htrace as [Htrace|[Htrace|[warning Htrace]]]; rewrite Htrace in Hin.
    + apply elem_of_nil in Hin. contradiction.
    + apply list_elem_of_singleton in Hin. injection Hin as ->. auto.
    + apply elem_of_cons in Hin as [[= ->]|Hin]; [auto|].
      apply list_elem_of_singleton in Hin. discriminate.
  - cbn. intros Hin. apply elem_of_nil in Hin. contradiction.
Qed.

(** X14. The one request that [verifyToken] may make goes to the base
    URL, which is then not empty, followed by the subject of the token,
    which then starts with '5'; with an empty base URL, or for any other
    subject, nothing is requested. *)
Theorem fetch_target (w : world) (token : string) (options : TokenVerifierOptions)
    (url : string) :
  EvFetch url ∈ trace (verifyToken w token options) ->
  exists header payload signatureBytes sub,
    splitJWT token = Return (header, payload, signatureBytes)
    /\ get_prop payload "sub" = Return (VStr sub)
    /\ url = default "https://api.sensespace.xyz/api/did/" (didBaseUrl options) +:+ sub
    /\ default "https://api.sensespace.xyz/api/did/" (didBaseUrl options) <> ""
    /\ String.prefix "5" sub = true.
Proof.
  run.
  all: try (cbn; intros Hin; exfalso;
            repeat (apply elem_of_cons in Hin as [Hin|Hin]; [discriminate Hin|]);
            apply elem_of_nil in Hin; exact Hin).
  match goal with
  | |- context [fetchDidDocument ?w ?url ?sub] =>
      destruct (fetchDidDocument_runs w url sub) as (document & Hdocument & _);
      rewrite (bind_Return_mret _ document _ Hdocument)
  end.
  cbn [trace]. intros Hin.
  apply elem_of_cons in Hin as [Hin|Hin]; [discriminate Hin|].
  apply fetchDidDocument_target in Hin as (-> & Hbase & Hprefix).
  match goal with
  | Hguard : negb (truthy _) || negb (is_string _) = false |- _ =>
      apply subject_guard in Hguard as (sub & -> & Hsub & _)
  end.
  cbn [string_of] in *. do 4 eexists.
  repeat (split; [eassumption || reflexivity|]). assumption.
Qed.
End Guarantees.

(** ** More on addresses *)

Section Addresses.
Context `{Host}.

Lemma checksum_length (input : list byte) :
  List.length (slice (blake2b 64 input) 0 2) = 2.
Proof. rewrite slice_length; [reflexivity|]. rewrite blake2b_length. lia. Qed.

(** X15. The raw form of a generated address is one prefix byte, the
    prefix modulo 256 (42 when none is given), then the key, then the first
    two bytes of the 64-byte digest of prefix and key; so prefixes that agree
    modulo 256 give the same address. *)
Theorem address_layout (publicKey : list byte) (prefix : option Z) :
  (exists checksum,
     bs58.decode (generateSS58Address publicKey prefix)
     = Return ([byte_of_Z (default 42%Z prefix)] ++ publicKey ++ checksum)
     /\ List.length checksum = 2
     /\ checksum = firstn 2 (blake2b 64 ([byte_of_Z (default 42%Z prefix)] ++ publicKey)))
  /\ generateSS58Address publicKey None = generateSS58Address publicKey (Some 42%Z)
  /\ (forall p q : Z, (p mod 256 = q mod 256)%Z ->
        generateSS58Address publicKey (Some p) = generateSS58Address publicKey (Some q)).
Proof.
  split; [|split].
  - eexists. split; [apply generateSS58Address_decode|].
    split; [apply checksum_length|reflexivity].
  - reflexivity.
  - intros p q Hpq. unfold generateSS58Address, byte_of_Z.
    change (default 42%Z (Some p)) with p. change (default 42%Z (Some q)) with q.
    rewrite Hpq. reflexivity.
Qed.

(** X16. [generateSS58Address] takes a key of any length, but only keys of
    32 bytes come back: the address of a shorter key is refused as too
    short, and the address of a longer key decodes to its last 32 bytes. *)
Theorem address_of_other_key_lengths (publicKey : list byte) (prefix : option Z) :
  (List.length publicKey < 32 ->
   ss58DecodePublicKey (generateSS58Address publicKey prefix)
   = Throw (too_short (List.length publicKey + 3)))
  /\ (32 < List.length publicKey ->
      ss58DecodePublicKey (generateSS58Address publicKey prefix)
      = Return (skipn (List.length publicKey - 32) publicKey)).
Proof.
  pose proof (generateSS58Address_decode publicKey prefix) as Hraw.
  set (p := byte_of_Z (default 42%Z prefix)) in *.
  set (checksum := slice (blake2b 64 ([p] ++ publicKey)) 0 2) in *.
  assert (Hchecksum : List.length checksum = 2) by apply checksum_length.
  split; intros Hlen.
  - rewrite (ss58DecodePublicKey_raw _ _ Hraw).
    assert (Hn : List.length ([p] ++ publicKey ++ checksum) = List.length publicKey + 3)
      by (rewrite !length_app, Hchecksum; cbn [List.length]; lia).
    rewrite Hn.
    destruct (Nat.ltb_spec (List.length publicKey + 3) 35); [reflexivity|lia].
  - apply (ss58DecodePublicKey_fields _
             ([p] ++ firstn (List.length publicKey - 32) publicKey)
             (skipn (List.length publicKey - 32) publicKey) checksum).
    + rewrite Hraw. f_equal. rewrite <- !app_assoc. f_equal.
      rewrite app_assoc, firstn_skipn. reflexivity.
    + rewrite length_app, length_take. cbn [List.length]. lia.
    + rewrite length_skipn. lia.
    + exact Hchecksum.
Qed.

(** X17. Keys of 32 bytes with the same address are the same key, whatever
    the prefixes: no two keys share an address. *)
Theorem address_injective (key1 key2 : list byte) (prefix1 prefix2 : option Z) :
  List.length key1 = 32 -> List.length key2 = 32 ->
  generateSS58Address key1 prefix1 = generateSS58Address key2 prefix2 ->
  key1 = key2.
Proof.
  intros Hlen1 Hlen2 Haddress.
  assert (Hdecode : forall key prefix, List.length key = 32 ->
            ss58DecodePublicKey (generateSS58Address key prefix) = Return key).
  { intros key prefix Hlen.
    eapply ss58DecodePublicKey_fields.
    - apply generateSS58Address_decode.
    - cbn. lia.
    - exact Hlen.
    - apply checksum_length. }
  pose proof (Hdecode key1 prefix1 Hlen1) as H1.
  rewrite Haddress, (Hdecode key2 prefix2 Hlen2) in H1.
  injection H1 as <-. reflexivity.
Qed.
End Addresses.

Section IssueThenVerify.
Context `{Host}.

Lemma key_address_decodes (bytes : list byte) :
  List.length (ed25519_getPublicKey bytes) = 32 ->
  ss58DecodePublicKey (generateSS58Address (ed25519_getPublicKey bytes) None)
  = Return (ed25519_getPublicKey bytes).
Proof.
  intros Hlen. eapply ss58DecodePublicKey_fields.
  - apply generateSS58Address_decode.
  - cbn. lia.
  - exact Hlen.
  - rewrite slice_length; [reflexivity|]. rewrite blake2b_length. lia.
Qed.

(** X18. A token issued is a token accepted. Let a host write no dot in
    Base64URL, carry the header, the payload and the signature through
    encoding and decoding, and verify what it signed. A token issued with
    a 32-byte key, no subject of its own and additional claims that leave
    the five fixed names alone is then accepted, with the payload issued as
    its claims, by a verifier whose allow-list has the issuer, at any second
    from the one of issue to the last before expiry, and within [maxAge]
    of the issue when one is set. *)
Theorem issued_token_verifies (w w' : world) (issuing : GenerateTokenOptions)
    (verifying : TokenVerifierOptions) (bytes : list byte) :
  let extra := default ∅ (additionalClaims issuing) in
  let now := (Date_now w / 1000)%Z in
  let lifetime := default 2592000%Z (expiresIn issuing) in
  let issuer := default "sensespace" (issuer issuing) in
  let address := generateSS58Address (ed25519_getPublicKey bytes) None in
  let payload := payload_of now lifetime issuer None address extra in
  privateKeyBytes_of (privateKey issuing) = Return bytes ->
  List.length bytes = 32 ->
  subject issuing = None ->
  (forall key, key ∈ ["iat"; "exp"; "nbf"; "iss"; "sub"] -> extra !! key = None) ->
  (now <= Date_now w' / 1000 < now + lifetime)%Z ->
  (forall age, maxTokenAge verifying = Some age -> (Date_now w' / 1000 <= now + age)%Z) ->
  issuer ∈ default ["sensespace"] (allowedIssuers verifying) ->
  encoder_writes_no_dot ->
  signatures_verify ->
  carries_value (VObj header_EdDSA) ->
  carries_value (VObj payload) ->
  (forall message, carries_bytes (ed25519_sign message bytes)) ->
  exists token r,
    generateToken w issuing = Return token
    /\ outcome (verifyToken w' token verifying) = Return r
    /\ success r = true /\ error r = None /\ claims r = Some (VObj payload).
Proof.
  intros extra now lifetime issuer address payload Hbytes Hlen Hsubject Hextra
    Hnow Hage Hissuer Hdot Hsign Hheader Hpayload Hsignature.
  assert (Hfixed : payload !! "iat" = Some (VNum now)
                   /\ payload !! "exp" = Some (VNum (now + lifetime))
                   /\ payload !! "nbf" = Some (VNum now)
                   /\ payload !! "iss" = Some (VStr issuer)
                   /\ payload !! "sub" = Some (VStr address)).
  { assert (Hfive : forall key, In key ["iat"; "exp"; "nbf"; "iss"; "sub"] ->
              extra !! key = None)
      by (intros key Hkey; apply Hextra, list_elem_of_In; exact Hkey).
    unfold payload. rewrite !payload_of_lookup.
    rewrite !Hfive by (cbn; tauto). repeat split. }
  destruct Hfixed as (Hiat & Hexp & Hnbf & Hiss & Hsub).
  destruct (Hsign (Buffer_from_utf8
                     (b64urlEncode (Buffer_from_utf8 (JSON_stringify (VObj header_EdDSA)))
                      +:+ "." +:+
                      b64urlEncode (Buffer_from_utf8 (JSON_stringify (VObj payload)))))
              bytes Hlen) as (Hpublic & Hverify).
  destruct (carried _ Hheader) as (hb & Hhb & Hparse_header).
  destruct (carried _ Hpayload) as (pb & Hpb & Hparse_payload).
  exists (signToken payload bytes). 
  assert (Hissued : generateToken w issuing = Return (signToken payload bytes)).
  { rewrite (generateToken_bytes _ _ _ Hbytes), Hlen, Hsubject. reflexivity. }
  assert (Haccepted : accepted w' (signToken payload bytes) verifying (VObj payload)).
  { unfold accepted, signToken.
    set (eh := b64urlEncode (Buffer_from_utf8 (JSON_stringify (VObj header_EdDSA)))) in *.
    set (ep := b64urlEncode (Buffer_from_utf8 (JSON_stringify (VObj payload)))) in *.
    set (signature := ed25519_sign (Buffer_from_utf8 (eh +:+ "." +:+ ep)) bytes) in *.
    exists (VObj header_EdDSA), signature, address, (ed25519_getPublicKey bytes),
      eh, ep, (b64urlEncode signature).
    split; [rewrite append_assoc; reflexivity|]. split.
    { unfold splitJWT. rewrite append_assoc.
      change (eh +:+ ("." +:+ ep) +:+ "." +:+ b64urlEncode signature)
        with (eh +:+ "." +:+ ep +:+ "." +:+ b64urlEncode signature).
      rewrite (split_joined eh ep (b64urlEncode signature) (Hdot _) (Hdot _) (Hdot _)).
      rewrite Hhb. cbn [mbind result_bind]. rewrite Hparse_header.
      cbn [mbind result_bind]. rewrite Hpb. cbn [mbind result_bind].
      rewrite Hparse_payload. cbn [mbind result_bind].
      pose proof (Hsignature (Buffer_from_utf8 (eh +:+ "." +:+ ep))) as Hcarried.
      unfold carries_bytes in Hcarried. fold signature in Hcarried.
      rewrite Hcarried. reflexivity. }
    split; [cbn; rewrite Hsub; reflexivity|].
    split; [apply address_not_empty|].
    split; [reflexivity|]. split.
    { intros iss. cbn [get_prop]. rewrite Hiss. cbn [default from_option id].
      intros [= <-] _ _. cbn [includes]. apply bool_decide_eq_true. exact Hissuer. }
    split; [exact (fresh_claims_accepted w' payload _ now lifetime Hexp Hnbf Hiat Hnow Hage)|].
    split; [apply key_address_decodes; exact Hpublic|].
    exact Hverify. }
  destruct (accepted_succeeds _ _ _ _ Haccepted) as (document & Hout).
  eexists. split; [exact Hissued|]. split; [exact Hout|]. repeat split.
Qed.
(** X19. The shape of an issued token, on a host whose encoder writes no
    dot: it has exactly two dots; its first segment is the encoded header,
    the same for every token; and its third is the encoded signature, made
    with the key over the first two segments joined by a dot. *)
Theorem issued_token_shape (w : world) (options : GenerateTokenOptions)
    (token : string) :
  encoder_writes_no_dot ->
  generateToken w options = Return token ->
  exists bytes h p s,
    privateKeyBytes_of (privateKey options) = Return bytes
    /\ List.length bytes = 32
    /\ token = h +:+ "." +:+ p +:+ "." +:+ s
    /\ count_char "." token = 2
    /\ h = b64urlEncode (Buffer_from_utf8 (JSON_stringify (VObj header_EdDSA)))
    /\ s = b64urlEncode (ed25519_sign (Buffer_from_utf8 (h +:+ "." +:+ p)) bytes).
Proof.
  intros Hdot Hissued.
  destruct (privateKeyBytes_of (privateKey options)) as [bytes|e] eqn:Hbytes.
  - rewrite (generateToken_bytes _ _ _ Hbytes) in Hissued.
    destruct (Nat.eqb_spec (List.length bytes) 32) as [Hlen|_]; [|discriminate].
    injection Hissued as <-. unfold signToken.
    do 4 eexists. split; [reflexivity|]. split; [exact Hlen|].
    split; [rewrite append_assoc; reflexivity|]. split; [|split; reflexivity].
    rewrite !count_char_append. simpl count_char.
    unfold encoder_writes_no_dot in Hdot. rewrite !Hdot. reflexivity.
  - unfold generateToken in Hissued. rewrite Hbytes in Hissued. discriminate.
Qed.
End IssueThenVerify.

(** ** Short addresses *)

Section DigitCounts.
#[local] Open Scope N_scope.
Variable base : N.
Hypothesis base_gt1 : 1 < base.

Lemma to_digits_le_length fuel n k :
  n < base ^ N.of_nat k -> (List.length (Radix.to_digits_le base fuel n) <= k)%nat.
Proof.
  revert n k. induction fuel as [|fuel IH]; intros n k Hn; [cbn; lia|].
  cbn [Radix.to_digits_le]. destruct (N.eqb_spec n 0) as [->|Hnz]; [cbn; lia|].
  destruct k as [|k]; [cbn in Hn; lia|].
  cbn [List.length]. apply le_n_S, IH.
  rewrite Nat2N.inj_succ, N.pow_succ_r' in Hn.
  apply N.Div0.div_lt_upper_bound. lia.
Qed.

Lemma fold_digits_bound ds acc m :
  Radix.digits_ok base ds -> acc < base ^ N.of_nat m ->
  fold_left (fun a d => a * base + d) ds acc < base ^ N.of_nat (m + List.length ds).
Proof.
  revert acc m. induction ds as [|d ds IH]; intros acc m Hok Hacc.
  - cbn. rewrite Nat.add_0_r. exact Hacc.
  - inversion Hok as [|? ? Hd Hds]; subst. cbn [fold_left List.length].
    replace (m + S (List.length ds))%nat with (S m + List.length ds)%nat by lia.
    apply IH; [exact Hds|].
    rewrite Nat2N.inj_succ, N.pow_succ_r'. nia.
Qed.

Lemma from_digits_bound ds :
  Radix.digits_ok base ds -> Radix.from_digits base ds < base ^ N.of_nat (List.length ds).
Proof.
  intros Hok. apply (fold_digits_bound ds 0 0%nat Hok).
  cbn. lia.
Qed.
End DigitCounts.

Lemma index_from_bound c l i d :
  bs58.index_from c l i = Some d -> (d < i + N.of_nat (List.length l))%N.
Proof.
  revert i. induction l as [|a l IH]; intros i; cbn [bs58.index_from]; [discriminate|].
  destruct (Ascii.eqb a c).
  - intros [= <-]. cbn [List.length]. lia.
  - intros Hd. apply IH in Hd. cbn [List.length]. lia.
Qed.

Lemma digits_of_chars_ok cs ds :
  bs58.digits_of_chars cs = Some ds ->
  List.length ds = List.length cs /\ Radix.digits_ok bs58.BASE ds.
Proof.
  revert ds. induction cs as [|c cs IH]; intros ds; cbn [bs58.digits_of_chars].
  - intros [= <-]. split; [reflexivity|constructor].
  - destruct (bs58.digit_of_char c) as [d|] eqn:Hd; [|discriminate].
    destruct (bs58.digits_of_chars cs) as [ds'|]; [|discriminate].
    intros [= <-]. destruct (IH ds' eq_refl) as (Hlen & Hok).
    split; [cbn [List.length]; lia|].
    constructor; [|exact Hok].
    apply index_from_bound in Hd. exact Hd.
Qed.

Lemma zeroes_le ds : bs58.zeroes ds <= List.length ds.
Proof.
  induction ds as [|d ds IH]; [reflexivity|].
  cbn [bs58.zeroes List.length]. destruct (N.eqb d 0); lia.
Qed.

Lemma length_list_ascii s : List.length (list_ascii_of_string s) = String.length s.
Proof. induction s as [|c s IH]; [reflexivity|]. cbn. rewrite IH. reflexivity. Qed.

(** What [bs58.decode] returns is no longer than its text. *)
Lemma decode_length s raw :
  bs58.decode s = Return raw -> List.length raw <= String.length s.
Proof.
  unfold bs58.decode.
  destruct (bs58.digits_of_chars (list_ascii_of_string s)) as [ds|] eqn:Hds;
    [|discriminate].
  intros [= <-].
  destruct (digits_of_chars_ok _ _ Hds) as (Hlen & Hok).
  rewrite length_list_ascii in Hlen.
  pose proof (zeroes_le ds) as Hz.
  rewrite length_app, repeat_length, length_map.
  unfold Radix.to_digits. rewrite length_rev.
  assert (Hrest : Radix.digits_ok bs58.BASE (skipn (bs58.zeroes ds) ds))
    by (apply Forall_drop; exact Hok).
  pose proof (from_digits_bound bs58.BASE ltac:(reflexivity) _ Hrest) as Hbound.
  rewrite length_skipn in Hbound.
  assert (H256 : (Radix.from_digits bs58.BASE (skipn (bs58.zeroes ds) ds)
                  < 256 ^ N.of_nat (List.length ds - bs58.zeroes ds))%N).
  { eapply N.lt_le_trans; [exact Hbound|].
    apply N.pow_le_mono_l. unfold bs58.BASE. lia. }
  pose proof (to_digits_le_length 256 ltac:(reflexivity)
                (N.to_nat (N.size (Radix.from_digits bs58.BASE
                                     (skipn (bs58.zeroes ds) ds))))
                _ _ H256) as Hdigits.
  etransitivity; [apply Nat.add_le_mono_l; exact Hdigits|]. lia.
Qed.

(** X20. An address of fewer than 35 characters is never decoded: either
    it has a character outside the base-58 alphabet, or its raw form is too
    short. *)
Theorem short_address_rejected (ss58Addr : string) :
  String.length ss58Addr < 35 ->
  ss58DecodePublicKey ss58Addr = Throw (Error "Non-base58 character")
  \/ exists n, n < 35 /\ ss58DecodePublicKey ss58Addr = Throw (too_short n).
Proof.
  intros Hshort.
  destruct (bs58.decode ss58Addr) as [raw|e] eqn:Hraw.
  - right. exists (List.length raw).
    pose proof (decode_length _ _ Hraw) as Hlen.
    split; [lia|].
    rewrite (ss58DecodePublicKey_raw _ _ Hraw).
    destruct (Nat.ltb_spec (List.length raw) 35); [reflexivity|lia].
  - left. unfold ss58DecodePublicKey. rewrite Hraw. cbn [mbind result_bind].
    unfold bs58.decode in Hraw.
    destruct (bs58.digits_of_chars _); [discriminate|].
    injection Hraw as <-. reflexivity.
Qed.

Lemma short_address_rejected_witness :
  ss58DecodePublicKey "5abc" = Throw (Error "Non-base58 character")
  \/ exists n, n < 35 /\ ss58DecodePublicKey "5abc" = Throw (too_short n).
Proof. apply short_address_rejected. vm_compute. lia. Defined.

(** ** The further properties at work *)

Lemma splitJWT_format_witness :
  splitJWT (H := SampleHost.host) "abc" = Throw (Error "Invalid JWT format")
  /\ exists h p s,
       Examples.token_HS256_no_subject = h +:+ "." +:+ p +:+ "." +:+ s
       /\ count_char "." h = 0.
Proof.
  split.
  - apply (splitJWT_format (H := SampleHost.host) "abc"). discriminate.
  - destruct (proj2 (splitJWT_format (H := SampleHost.host)
                       Examples.token_HS256_no_subject) eq_refl)
      as (h & p & s & Htoken & Hh & _).
    exists h, p, s. split; assumption.
Defined.

Lemma validateTokenTimes_accepts_iff_witness :
  validateTokenTimes (SampleHost.at_time 99) Examples.claims_exp_100 (Some 10%Z)
  = Return tt.
Proof.
  apply (validateTokenTimes_accepts_iff (SampleHost.at_time 99)
           Examples.claims_exp_100 (Some 10%Z)
           (VNum 100) VUndefined VUndefined eq_refl eq_refl eq_refl).
  split; [right; reflexivity|]. split; [exact I|]. right. exact I.
Defined.

Lemma validateTokenTimes_first_failure_witness :
  validateTokenTimes (SampleHost.at_time 99) MoreExamples.claims_nbf_100 None
    = Throw (Error "Token not yet valid")
  /\ validateTokenTimes (SampleHost.at_time 99) MoreExamples.claims_iat_50 (Some 48%Z)
     = Throw (Error "Token too old").
Proof.
  split.
  - apply (validateTokenTimes_first_failure (SampleHost.at_time 99)
             MoreExamples.claims_nbf_100 None
             VUndefined (VNum 100) VUndefined eq_refl eq_refl eq_refl).
    split; [exact I|]. exists 100%Z.
    split; [reflexivity|]. split; [discriminate|reflexivity].
  - apply (validateTokenTimes_first_failure (SampleHost.at_time 99)
             MoreExamples.claims_iat_50 (Some 48%Z)
             VUndefined VUndefined (VNum 50) eq_refl eq_refl eq_refl).
    split; [exact I|]. split; [exact I|]. exists 48%Z, 50%Z.
    split; [reflexivity|]. split; [discriminate|].
    split; [reflexivity|]. split; [discriminate|reflexivity].
Defined.

Lemma validateTokenTimes_skips_non_numbers_witness :
  validateTokenTimes SampleHost.offline (VObj MoreExamples.claims_exp_string) (Some 1%Z)
  = Return tt.
Proof.
  apply validateTokenTimes_skips_non_numbers.
  intros key n Hkey.
  apply list_elem_of_In in Hkey.
  destruct Hkey as [<-|[<-|[<-|[]]]]; vm_compute; discriminate.
Defined.

Lemma verifyToken_success_iff_witness :
  accepted (H := SampleHost.host) SampleHost.offline Examples.token_signed_alice
    SampleHost.no_options (VObj (<["sub" := VStr Examples.alice]> ∅)).
Proof.
  apply (verifyToken_success_iff (H := SampleHost.host)).
  eexists. split; [vm_compute; reflexivity|]. split; reflexivity.
Defined.

Lemma verdict_ignores_network_witness :
  exists r1 r2,
    outcome (verifyToken (H := SampleHost.host) SampleHost.offline
               Examples.token_signed_alice SampleHost.no_options) = Return r1
    /\ outcome (verifyToken (H := SampleHost.host) MoreExamples.online
                  Examples.token_signed_alice SampleHost.no_options) = Return r2
    /\ didDocument r1 = None /\ didDocument r2 = Some (VObj ∅)
    /\ success r1 = success r2 /\ claims r1 = claims r2.
Proof.
  do 2 eexists.
  assert (H1 : outcome (verifyToken (H := SampleHost.host) SampleHost.offline
                 Examples.token_signed_alice SampleHost.no_options) = Return _)
    by (vm_compute; reflexivity).
  assert (H2 : outcome (verifyToken (H := SampleHost.host) MoreExamples.online
                 Examples.token_signed_alice SampleHost.no_options) = Return _)
    by (vm_compute; reflexivity).
  split; [exact H1|]. split; [exact H2|].
  split; [reflexivity|]. split; [reflexivity|].
  destruct (verdict_ignores_network (H := SampleHost.host) SampleHost.offline
              MoreExamples.online Examples.token_signed_alice SampleHost.no_options
              _ _ eq_refl H1 H2) as (Hsuccess & _ & Hclaims).
  split; [exact Hsuccess|exact Hclaims].
Defined.

Lemma issuer_rejected_witness :
  verifyToken (H := MoreExamples.host_other_issuer) SampleHost.offline
    MoreExamples.token_other_issuer SampleHost.no_options
  = IO [] (Return (failure "Invalid issuer: other")).
Proof.
  destruct (issuer_rejected (H := MoreExamples.host_other_issuer) SampleHost.offline
              MoreExamples.token_other_issuer SampleHost.no_options
              (VObj (<["alg" := VStr "EdDSA"]> ∅)) MoreExamples.payload_other_issuer
              [x00] "5abc" (VStr "other"))
    as (message & Hrun & Htext & _).
  - vm_compute. reflexivity.
  - reflexivity.
  - discriminate.
  - reflexivity.
  - reflexivity.
  - reflexivity.
  - discriminate.
  - vm_compute. reflexivity.
  - rewrite Hrun, (Htext "other"); reflexivity.
Defined.

Lemma verifyToken_malformed_witness :
  verifyToken (H := SampleHost.host) SampleHost.offline "abc.def" SampleHost.no_options
  = IO [] (Return (failure "Invalid JWT format")).
Proof.
  apply (verifyToken_malformed (H := SampleHost.host)). discriminate.
Defined.

Lemma address_layout_witness :
  generateSS58Address (H := SampleHost.host) Examples.alice_key (Some 42%Z)
  = generateSS58Address (H := SampleHost.host) Examples.alice_key (Some 298%Z).
Proof.
  apply (address_layout (H := SampleHost.host) Examples.alice_key None).
  reflexivity.
Defined.

Lemma address_of_other_key_lengths_witness :
  ss58DecodePublicKey
    (generateSS58Address (H := SampleHost.host) (repeat x01 31) None)
    = Throw (too_short 34)
  /\ ss58DecodePublicKey
       (generateSS58Address (H := SampleHost.host) (x02 :: repeat x01 32) None)
     = Return (repeat x01 32).
Proof.
  split.
  - apply (address_of_other_key_lengths (H := SampleHost.host) (repeat x01 31) None).
    vm_compute. lia.
  - apply (address_of_other_key_lengths (H := SampleHost.host)
             (x02 :: repeat x01 32) None).
    vm_compute. lia.
Defined.

Lemma address_injective_witness : Examples.alice_key = Examples.alice_key.
Proof.
  apply (address_injective (H := SampleHost.host) Examples.alice_key Examples.alice_key
           (Some 42%Z) None).
  - vm_compute. reflexivity.
  - vm_compute. reflexivity.
  - reflexivity.
Defined.

Lemma extractClaims_agrees_witness :
  SenseSpaceTokenVerifier.extractClaims (H := SampleHost.host)
    MoreExamples.no_keys "abc" = VNull
  /\ SenseSpaceTokenVerifier.extractClaims (H := SampleHost.host)
       MoreExamples.no_keys Examples.token_signed_alice
     = VObj (<["sub" := VStr Examples.alice]> ∅).
Proof.
  destruct (extractClaims_agrees (H := SampleHost.host) MoreExamples.no_keys
              SampleHost.offline "abc") as (Hnull & _).
  destruct (extractClaims_agrees (H := SampleHost.host) MoreExamples.no_keys
              SampleHost.offline Examples.token_signed_alice) as (_ & Hclaims).
  split; [apply Hnull; discriminate|].
  assert (Hrun : outcome (SenseSpaceTokenVerifier.verify (H := SampleHost.host)
                            MoreExamples.no_keys SampleHost.offline
                            Examples.token_signed_alice)
                 = Return {| success := true; error := None;
                             claims := Some (VObj (<["sub" := VStr Examples.alice]> ∅));
                             didDocument := None |})
    by (vm_compute; reflexivity).
  specialize (Hclaims _ Hrun eq_refl).
  apply (inj Some). symmetry. exact Hclaims.
Defined.

(** The sample encoder writes letters, digits, '-' and '_' only. *)
Lemma base64url_char_not_dot d : Ascii.eqb (SampleHost.base64url_char d) "." = false.
Proof.
  unfold SampleHost.base64url_char.
  set (alphabet := list_ascii_of_string (SampleHost.base64_alphabet +:+ "-_")).
  assert (Hall : forallb (fun c => negb (Ascii.eqb c ".")) ("A"%char :: alphabet) = true)
    by (vm_compute; reflexivity).
  rewrite forallb_forall in Hall.
  apply negb_true_iff, Hall.
  destruct (nth_in_or_default (N.to_nat d) alphabet "A"%char) as [Hin| ->].
  - right. exact Hin.
  - left. reflexivity.
Qed.

Lemma encode_base64url_no_dot fuel (bs : list N) :
  List.length bs <= fuel ->
  count_char "." (string_of_list_ascii (SampleHost.encode_base64url bs)) = 0.
Proof.
  revert bs. induction fuel as [|fuel IH]; intros bs Hlen.
  - destruct bs; [reflexivity|cbn in Hlen; lia].
  - destruct bs as [|a [|b [|c bs]]]; cbn [SampleHost.encode_base64url].
    + reflexivity.
    + cbn [string_of_list_ascii count_char].
      rewrite !base64url_char_not_dot. reflexivity.
    + cbn [string_of_list_ascii count_char].
      rewrite !base64url_char_not_dot. reflexivity.
    + cbn [string_of_list_ascii count_char].
      rewrite !base64url_char_not_dot. cbn [Nat.add].
      apply IH. cbn [List.length] in Hlen. lia.
Qed.

Lemma sample_encoder_writes_no_dot table :
  encoder_writes_no_dot (H := TableHost.host table).
Proof. intros bytes. apply (encode_base64url_no_dot (List.length bytes)). rewrite length_map. lia. Qed.

Lemma sample_signatures_verify table : signatures_verify (H := TableHost.host table).
Proof.
  intros message key Hlen. split; [exact Hlen|].
  cbn. unfold SampleHost.verify. rewrite bool_decide_eq_true_2; reflexivity.
Qed.

Lemma sample_carries_signature table message key :
  carries_bytes (H := TableHost.host table) (SampleHost.sign message key).
Proof.
  unfold SampleHost.sign, SampleHost.digest.
  generalize (bs58.byte_of_N
                (fold_right N.add 0%N (map Byte.to_N (key ++ message)) mod 256)).
  intros b. destruct b; vm_compute; reflexivity.
Qed.

Lemma issued_token_verifies_witness :
  exists token r,
    generateToken (H := MoreExamples.host_round_trip) SampleHost.offline
      (Examples.options_of (inr Examples.key_01) None None) = Return token
    /\ outcome (verifyToken (H := MoreExamples.host_round_trip)
                  (SampleHost.at_time 1700000100) token SampleHost.no_options)
       = Return r
    /\ success r = true.
Proof.
  destruct (issued_token_verifies (H := MoreExamples.host_round_trip)
              SampleHost.offline (SampleHost.at_time 1700000100)
              (Examples.options_of (inr Examples.key_01) None None)
              SampleHost.no_options Examples.key_01)
    as (token & r & Hissued & Hout & Hsuccess & _).
  - reflexivity.
  - reflexivity.
  - reflexivity.
  - intros key _. apply lookup_empty.
  - split; [discriminate|reflexivity].
  - intros age Hage. discriminate Hage.
  - vm_compute. left.
  - apply sample_encoder_writes_no_dot.
  - apply sample_signatures_verify.
  - vm_compute. reflexivity.
  - vm_compute. reflexivity.
  - intros message. apply sample_carries_signature.
  - exists token, r. split; [exact Hissued|]. split; [exact Hout|exact Hsuccess].
Defined.

Lemma fetch_target_witness :
  exists header payload signatureBytes sub,
    splitJWT (H := SampleHost.host) Examples.token_signed_alice
    = Return (header, payload, signatureBytes)
    /\ get_prop payload "sub" = Return (VStr sub)
    /\ "https://api.sensespace.xyz/api/did/" +:+ Examples.alice
       = "https://api.sensespace.xyz/api/did/" +:+ sub.
Proof.
  destruct (fetch_target (H := SampleHost.host) MoreExamples.online
              Examples.token_signed_alice SampleHost.no_options
              ("https://api.sensespace.xyz/api/did/" +:+ Examples.alice))
    as (header & payload & signatureBytes & sub & Hsplit & Hsub & Hurl & _).
  - vm_compute. apply elem_of_cons. right. apply elem_of_cons. left. reflexivity.
  - exists header, payload, signatureBytes, sub.
    split; [exact Hsplit|]. split; [exact Hsub|exact Hurl].
Defined.

Lemma issued_token_shape_witness :
  exists token,
    generateToken (H := MoreExamples.host_round_trip) SampleHost.offline
      (Examples.options_of (inr Examples.key_01) None None) = Return token
    /\ count_char "." token = 2.
Proof.
  assert (Hissued :
            generateToken (H := MoreExamples.host_round_trip) SampleHost.offline
              (Examples.options_of (inr Examples.key_01) None None)
            = Return (signToken (H := MoreExamples.host_round_trip)
                        MoreExamples.payload_01 Examples.key_01))
    by reflexivity.
  destruct (issued_token_shape (H := MoreExamples.host_round_trip) SampleHost.offline
              (Examples.options_of (inr Examples.key_01) None None) _
              (sample_encoder_writes_no_dot _) Hissued)
    as (bytes & h & p & s & _ & _ & _ & Hcount & _).
  eexists. split; [exact Hissued|exact Hcount].
Defined.
